(** * The inner-curvature sheet extractor, [backend/extractors/inner_curvature.py]

    A shallow embedding of the extractor and of the helpers it calls, followed
    by the properties its specification states about them.

    Conventions of the embedding.
    - Text is a sequence of Unicode code points, as a Python [str] is.  On
      ASCII the character classes of [str.strip], [str.isdigit], [int] and of
      the regular expressions ([\d], [\D], [\s]) are written out; beyond ASCII
      they are those of the Unicode database of the interpreter, which the
      class [Unicode] stands for.
    - A Python [float] holding a page fraction is a rational [Q], and its
      product with a length is exact; [int(x)] is truncation toward zero.
    - A raised exception is the [Raise] branch of [result].
    - Pillow, numpy, PyMuPDF and the OCR reader are outside the repository:
      what the extractor needs from them that is not plain index arithmetic is
      gathered in the class [Capabilities]. *)

From Stdlib Require Import ZArith NArith QArith Qround Qminmax List Lia Lqa Bool.
From Stdlib.Strings Require Import Byte Ascii String.
From Stdlib Require Import DecimalString.
Import ListNotations.

(** ** Exceptions *)

Inductive exn : Type :=
| FileNotFoundError
| ValueError
| KeyError
| IndexError
| SystemError
| UnidentifiedImageError
| FileDataError.

Inductive result (A : Type) : Type :=
| Ok (a : A)
| Raise (e : exn).

Arguments Ok {A} a.
Arguments Raise {A} e.

Definition bind {A B : Type} (m : result A) (k : A -> result B) : result B :=
  match m with
  | Ok a => k a
  | Raise e => Raise e
  end.

Notation "x <- m ;; k" := (bind m (fun x => k))
  (at level 61, m at next level, right associativity).
Notation "' p <- m ;; k" := (bind m (fun x => let p := x in k))
  (at level 61, p pattern, m at next level, right associativity).

(** ** Text *)

(** A character is its code point. *)
Definition char : Type := N.

Inductive text : Type :=
| EmptyText
| Text (c : char) (s : text).

Module Txt.

(** The code points of a UTF-8 byte sequence: how a literal of this file is
    read. *)
Fixpoint decode (l : list N) : option text :=
  match l with
  | [] => Some EmptyText
  | b0 :: l1 =>
      if (b0 <? 128)%N then option_map (Text b0) (decode l1)
      else
        match l1 with
        | [] => None
        | b1 :: l2 =>
            if (b0 <? 224)%N
            then option_map (Text ((b0 - 192) * 64 + (b1 - 128))%N) (decode l2)
            else
              match l2 with
              | [] => None
              | b2 :: l3 =>
                  if (b0 <? 240)%N
                  then option_map
                         (Text ((b0 - 224) * 4096 + (b1 - 128) * 64 + (b2 - 128))%N)
                         (decode l3)
                  else
                    match l3 with
                    | [] => None
                    | b3 :: l4 =>
                        option_map
                          (Text ((b0 - 240) * 262144 + (b1 - 128) * 4096
                                 + (b2 - 128) * 64 + (b3 - 128))%N)
                          (decode l4)
                    end
              end
        end
  end.

Definition parse (l : list Byte.byte) : option text := decode (map Byte.to_N l).

Fixpoint ascii_bytes (s : text) : option (list Byte.byte) :=
  match s with
  | EmptyText => Some []
  | Text c s' =>
      match Byte.of_N c, ascii_bytes s' with
      | Some b, Some l => if (c <? 128)%N then Some (b :: l) else None
      | _, _ => None
      end
  end.

Fixpoint append (a b : text) : text :=
  match a with
  | EmptyText => b
  | Text c a' => Text c (append a' b)
  end.

Fixpoint length (s : text) : nat :=
  match s with
  | EmptyText => O
  | Text _ s' => S (length s')
  end.

(** The [m] characters of [s] from position [n] on, or as many as there are. *)
Fixpoint substring (n m : nat) (s : text) : text :=
  match n, m, s with
  | O, O, _ => EmptyText
  | O, S m', EmptyText => s
  | O, S m', Text c s' => Text c (substring O m' s')
  | S n', _, EmptyText => s
  | S n', _, Text _ s' => substring n' m s'
  end.

Fixpoint prefix (a b : text) : bool :=
  match a with
  | EmptyText => true
  | Text x a' =>
      match b with
      | EmptyText => false
      | Text y b' => if (x =? y)%N then prefix a' b' else false
      end
  end.

Fixpoint get (n : nat) (s : text) : option char :=
  match s with
  | EmptyText => None
  | Text c s' => match n with O => Some c | S n' => get n' s' end
  end.

Fixpoint eqb (a b : text) : bool :=
  match a, b with
  | EmptyText, EmptyText => true
  | Text x a', Text y b' => (x =? y)%N && eqb a' b'
  | _, _ => false
  end.

(** The text of a string of ASCII characters. *)
Fixpoint of_string (s : String.string) : text :=
  match s with
  | String.EmptyString => EmptyText
  | String.String a s' => Text (N_of_ascii a) (of_string s')
  end.

End Txt.

Declare Scope text_scope.
Delimit Scope text_scope with text.
Bind Scope text_scope with text.
String Notation text Txt.parse Txt.ascii_bytes : text_scope.
Notation "a ++ b" := (Txt.append a b) (right associativity, at level 60) : text_scope.

Local Open Scope list_scope.
Local Open Scope Z_scope.
Local Open Scope text_scope.

(** The character of a one-character literal. *)
Definition ch (s : text) : char :=
  match s with
  | Text c _ => c
  | EmptyText => 0%N
  end.

(** ** The Unicode database

    What the interpreter knows of the characters beyond ASCII, with the
    properties of it that the development relies on. *)

Class Unicode : Type :=
  { (** [Py_UNICODE_ISSPACE]: white space for [str.strip] and [\s] *)
    wide_space : char -> bool;
    (** [Py_UNICODE_TODECIMAL]: the value of a decimal digit, which is what
        [\d] matches and [int] reads *)
    wide_decimal : char -> option Z;
    (** [Py_UNICODE_ISDIGIT]: what [str.isdigit] accepts *)
    wide_digit : char -> bool;
    decimal_below_ten : forall c v, wide_decimal c = Some v -> 0 <= v <= 9;
    decimal_is_digit : forall c v, wide_decimal c = Some v -> wide_digit c = true;
    digit_is_no_space : forall c, wide_digit c = true -> wide_space c = false;
    (** the superscripts two and three are digits without a decimal value *)
    superscript_digits :
      forall c, c = 178%N \/ c = 179%N ->
                wide_digit c = true /\ wide_decimal c = None }.

(** ** Python strings *)

Module Py.

Section Classes.
Context {uni : Unicode}.

(** [str.isspace] on one character: on ASCII, TAB..CR, FS..US and the space. *)
Definition is_space (c : char) : bool :=
  if (c <? 128)%N
  then ((9 <=? c) && (c <=? 13) || (28 <=? c) && (c <=? 32))%N
  else wide_space c.

(** The value of a decimal digit. *)
Definition decimal (c : char) : option Z :=
  if (c <? 128)%N
  then if ((48 <=? c) && (c <=? 57))%N then Some (Z.of_N c - 48) else None
  else wide_decimal c.

(** [str.isdecimal] on one character, the class [\d] *)
Definition is_decimal (c : char) : bool :=
  match decimal c with Some _ => true | None => false end.

(** The class [\D] *)
Definition not_decimal (c : char) : bool := negb (is_decimal c).

(** [str.isdigit] on one character *)
Definition is_digit (c : char) : bool :=
  if (c <? 128)%N then ((48 <=? c) && (c <=? 57))%N else wide_digit c.

End Classes.

Fixpoint lstrip_with (p : char -> bool) (s : text) : text :=
  match s with
  | Text c s' => if p c then lstrip_with p s' else s
  | EmptyText => EmptyText
  end.

Fixpoint rstrip_with (p : char -> bool) (s : text) : text :=
  match s with
  | Text c s' =>
      match rstrip_with p s' with
      | EmptyText => if p c then EmptyText else Text c EmptyText
      | r => Text c r
      end
  | EmptyText => EmptyText
  end.

Definition strip_with (p : char -> bool) (s : text) : text :=
  rstrip_with p (lstrip_with p s).

(** [s.replace(old, new)]: leftmost occurrences, not overlapping.  [skip]
    counts the characters of an occurrence still to be passed over. *)
Fixpoint replace_go (old new : text) (skip : nat) (s : text) : text :=
  match s with
  | EmptyText => EmptyText
  | Text c s' =>
      match skip with
      | S k => replace_go old new k s'
      | O =>
          if Txt.prefix old s
          then new ++ replace_go old new (pred (Txt.length old)) s'
          else Text c (replace_go old new 0 s')
      end
  end.

Fixpoint intersperse (new s : text) : text :=
  match s with
  | EmptyText => new
  | Text c s' => new ++ Text c (intersperse new s')
  end.

Definition replace (old new s : text) : text :=
  match old with
  | EmptyText => intersperse new s
  | _ => replace_go old new 0 s
  end.

(** [s.split(sep, 1)] for a one-character [sep], when [sep in s]. *)
Fixpoint split_once (sep : char) (s : text) : option (text * text) :=
  match s with
  | EmptyText => None
  | Text c s' =>
      if (c =? sep)%N then Some (EmptyText, s')
      else match split_once sep s' with
           | Some (l, r) => Some (Text c l, r)
           | None => None
           end
  end.

(** [s[:n]] and [s[n:]] *)
Definition take (n : nat) (s : text) : text := Txt.substring 0 n s.

Fixpoint drop (n : nat) (s : text) : text :=
  match n, s with
  | S k, Text _ s' => drop k s'
  | _, _ => s
  end.

(** [s[i]] *)
Definition index (s : text) (i : nat) : result text :=
  match Txt.get i s with
  | Some c => Ok (Text c EmptyText)
  | None => Raise IndexError
  end.

Fixpoint all_chars (p : char -> bool) (s : text) : bool :=
  match s with
  | EmptyText => true
  | Text c s' => p c && all_chars p s'
  end.

Fixpoint filter_chars (p : char -> bool) (s : text) : text :=
  match s with
  | EmptyText => EmptyText
  | Text c s' => if p c then Text c (filter_chars p s') else filter_chars p s'
  end.

(** [str(n)] *)
Definition str (n : Z) : text := Txt.of_string (NilZero.string_of_int (Z.to_int n)).

(** [sep.join(parts)] *)
Fixpoint join (sep : text) (parts : list text) : text :=
  match parts with
  | [] => EmptyText
  | [p] => p
  | p :: rest => p ++ sep ++ join sep rest
  end.

Definition startswith (s pre : text) : bool := Txt.prefix pre s.

(** [str.lower] on the letters A..Z; the other characters are left as they
    are.  The one use of it compares a lowered file suffix with ".pdf", and
    no character beyond ASCII is lowered to p, d or f. *)
Definition lower_char (c : char) : char :=
  if ((65 <=? c) && (c <=? 90))%N then (c + 32)%N else c.

Fixpoint lower (s : text) : text :=
  match s with
  | EmptyText => EmptyText
  | Text c s' => Text (lower_char c) (lower s')
  end.

Fixpoint rfind_go (c : char) (i : nat) (last : option nat) (s : text)
  : option nat :=
  match s with
  | EmptyText => last
  | Text d s' =>
      rfind_go c (S i) (if (d =? c)%N then Some i else last) s'
  end.

(** [PurePath.suffix] of a file name: from the last dot on, unless that dot
    opens or closes the name. *)
Definition suffix (name : text) : text :=
  match rfind_go (ch ".") 0 None name with
  | Some i =>
      if (Nat.ltb 0 i && Nat.ltb i (Txt.length name - 1))%bool
      then drop i name else EmptyText
  | None => EmptyText
  end.

Section Conversions.
Context {uni : Unicode}.

(** [s.strip()] *)
Definition lstrip (s : text) : text := lstrip_with is_space s.
Definition rstrip (s : text) : text := rstrip_with is_space s.
Definition strip (s : text) : text := strip_with is_space s.

(** [s.isdigit()] *)
Definition isdigit (s : text) : bool :=
  match s with
  | EmptyText => false
  | _ => all_chars is_digit s
  end.

(** [s.isdecimal()] *)
Definition isdecimal (s : text) : bool :=
  match s with
  | EmptyText => false
  | _ => all_chars is_decimal s
  end.

Definition decimal_value (c : char) : Z :=
  match decimal c with Some d => d | None => 0 end.

Fixpoint digits_value (acc : Z) (s : text) : Z :=
  match s with
  | EmptyText => acc
  | Text c s' => digits_value (10 * acc + decimal_value c) s'
  end.

(** The white space [int] passes over at both ends: below 127 that of C,
    from there on that of [str.isspace]. *)
Definition int_space (c : char) : bool :=
  if (c <? 127)%N then ((9 <=? c) && (c <=? 13) || (c =? 32))%N else is_space c.

(** Decimal digits, with single underscores between them. *)
Fixpoint int_body (acc : Z) (after_digit : bool) (s : text) : option Z :=
  match s with
  | EmptyText => if after_digit then Some acc else None
  | Text c s' =>
      match decimal c with
      | Some d => int_body (10 * acc + d) true s'
      | None =>
          if (c =? ch "_")%N && after_digit then int_body acc false s' else None
      end
  end.

(** [int(s)]: white space at the ends, a sign, decimal digits; anything else
    is a [ValueError]. *)
Definition int (s : text) : result Z :=
  let t := strip_with int_space s in
  let '(negative, body) :=
    match t with
    | Text c b =>
        if (c =? ch "+")%N then (false, b)
        else if (c =? ch "-")%N then (true, b)
        else (false, t)
    | EmptyText => (false, t)
    end in
  match int_body 0 false body with
  | Some v => Ok (if negative then - v else v)
  | None => Raise ValueError
  end.

End Conversions.

End Py.

(** ** Regular expressions

    The fragment of [re] the extractor uses, run by a backtracking matcher
    with Python's priorities: quantifiers are greedy, and [search] returns the
    match at the leftmost position that has one. *)

Module Re.

Inductive regex : Type :=
| Cls (p : char -> bool)                           (* one character of a class *)
| Rep (p : char -> bool) (lo : nat) (hi : option nat)   (* class{lo,hi} *)
| Cat (r1 r2 : regex)
| Opt (r : regex)
| Grp (r : regex).                                  (* capturing group *)

(** The part of [s] read when [rest] is what remains of it. *)
Definition consumed (s rest : text) : text :=
  Txt.substring 0 (Txt.length s - Txt.length rest) s.

Section Exec.
Variable R : Type.

Fixpoint rep (p : char -> bool) (lo : nat) (hi : option nat) (s : text)
  (k : text -> option R) {struct s} : option R :=
  let stop := match lo with O => k s | S _ => None end in
  match hi with
  | Some O => stop
  | _ =>
      match s with
      | Text c s' =>
          if p c
          then match rep p (pred lo) (option_map pred hi) s' k with
               | Some x => Some x
               | None => stop
               end
          else stop
      | EmptyText => stop
      end
  end.

Fixpoint exec (r : regex) (s : text) (caps : list text)
  (k : text -> list text -> option R) {struct r} : option R :=
  match r with
  | Cls p =>
      match s with
      | Text c s' => if p c then k s' caps else None
      | EmptyText => None
      end
  | Rep p lo hi => rep p lo hi s (fun s' => k s' caps)
  | Cat r1 r2 => exec r1 s caps (fun s1 caps1 => exec r2 s1 caps1 k)
  | Opt r1 =>
      match exec r1 s caps k with
      | Some x => Some x
      | None => k s caps
      end
  | Grp r1 =>
      exec r1 s caps (fun s1 caps1 => k s1 (caps1 ++ [consumed s s1])%list)
  end.
End Exec.

Arguments rep {R} p lo hi s k.
Arguments exec {R} r s caps k.

Record rmatch : Type := { start : nat; text_of : text; groups : list text }.

(** The match anchored at the head of [s], if any. *)
Definition match_at (r : regex) (s : text) : option (text * list text) :=
  exec r s [] (fun rest caps => Some (consumed s rest, caps)).

Fixpoint search_from (r : regex) (i : nat) (s : text) : option rmatch :=
  match match_at r s with
  | Some (m, caps) => Some {| start := i; text_of := m; groups := caps |}
  | None =>
      match s with
      | Text _ s' => search_from r (S i) s'
      | EmptyText => None
      end
  end.

(** [re.search(r, s)] *)
Definition search (r : regex) (s : text) : option rmatch := search_from r 0 s.

(** [m.group(n)] for [n >= 1] *)
Definition group (m : rmatch) (n : nat) : result text :=
  match nth_error (groups m) (pred n) with
  | Some g => Ok g
  | None => Raise IndexError
  end.

Section Classes.
Context {uni : Unicode}.

(** [re.split(r"\s+", s)]: [tok] is the piece being read, [in_run] tells
    whether the previous character was white space. *)
Fixpoint split_ws_go (tok : text) (in_run : bool) (s : text) : list text :=
  match s with
  | EmptyText => [tok]
  | Text c s' =>
      if Py.is_space c
      then if in_run then split_ws_go EmptyText true s'
           else tok :: split_ws_go EmptyText true s'
      else split_ws_go (tok ++ Text c EmptyText) false s'
  end.

Definition split_ws (s : text) : list text := split_ws_go EmptyText false s.

(** [re.sub(r"\D", "", s)] *)
Definition sub_nondigits (s : text) : text := Py.filter_chars Py.is_decimal s.

End Classes.

End Re.

Definition is_sign (c : char) : bool := ((c =? ch "+") || (c =? ch "-"))%N.
Definition is_dot (c : char) : bool := (c =? ch ".")%N.

Section Patterns.
Context {uni : Unicode}.

(** [r"[+\-]?\d+(?:\.\d+)?"] *)
Definition NUMERIC_RE : Re.regex :=
  Re.Cat (Re.Opt (Re.Cls is_sign))
    (Re.Cat (Re.Rep Py.is_decimal 1 None)
       (Re.Opt (Re.Cat (Re.Cls is_dot) (Re.Rep Py.is_decimal 1 None)))).

(** [r"(\d{1,2})\D+(\d{1,2})"] *)
Definition MONTH_DAY_RE : Re.regex :=
  Re.Cat (Re.Grp (Re.Rep Py.is_decimal 1 (Some 2%nat)))
    (Re.Cat (Re.Rep Py.not_decimal 1 None)
       (Re.Grp (Re.Rep Py.is_decimal 1 (Some 2%nat)))).

End Patterns.

(** ** Images

    An image is its size and its pixel array, indexed by column then row.
    Every image of the pipeline is RGB: [page0.png] is written from an RGB
    rendering and a crop of an RGB image is RGB. *)

Definition rgb : Type := (Z * Z * Z)%type.

Record image (A : Type) : Type :=
  { width : nat; height : nat; px : nat -> nat -> A }.

Arguments width {A} _.
Arguments height {A} _.
Arguments px {A} _ _ _.

Definition Image : Type := image rgb.
Definition Gray : Type := image Z.

Definition rect : Type := (Z * Z * Z * Z)%type.
Definition box_norm_t : Type := (Q * Q * Q * Q)%type.

Definition black : rgb := (0, 0, 0).

(** [img.size] *)
Definition size {A} (img : image A) : Z * Z :=
  (Z.of_nat (width img), Z.of_nat (height img)).

(** An image without pixels. *)
Definition is_empty {A} (img : image A) : bool :=
  Nat.eqb (width img) 0 || Nat.eqb (height img) 0.

Definition map_image {A B} (f : A -> B) (img : image A) : image B :=
  {| width := width img; height := height img;
     px := fun x y => f (px img x y) |}.

(** [img.convert("RGB")] on an RGB image *)
Definition convert_RGB (img : Image) : Image := img.

(** [img.crop((x1, y1, x2, y2))]: Pillow refuses a box whose right edge is left
    of its left edge or whose lower edge is above its upper edge; pixels of the
    box that lie outside the image are black. *)
Definition crop (img : Image) (box : rect) : result Image :=
  let '(x1, y1, x2, y2) := box in
  if (x2 <? x1) || (y2 <? y1) then Raise ValueError
  else
    let '(W, H) := size img in
    Ok {| width := Z.to_nat (x2 - x1);
          height := Z.to_nat (y2 - y1);
          px := fun x y =>
                  let X := x1 + Z.of_nat x in
                  let Y := y1 + Z.of_nat y in
                  if (0 <=? X) && (X <? W) && (0 <=? Y) && (Y <? H)
                  then px img (Z.to_nat X) (Z.to_nat Y)
                  else black |}.

(** [img.resize((w, h), Image.Resampling.NEAREST)] for an enlargement by a
    whole factor: output pixel [(x, y)] is input pixel [(x / k, y / k)]. *)
Definition resize_nearest (img : Image) (k : nat) : Image :=
  {| width := width img * k; height := height img * k;
     px := fun x y => px img (x / k)%nat (y / k)%nat |}.

(** [ImageOps.invert] on an "L" image *)
Definition invert (g : Gray) : Gray := map_image (fun p => 255 - p) g.

(** [g.point(f)] *)
Definition point (f : Z -> Z) (g : Gray) : Gray := map_image f g.

Definition range (n : nat) : list nat := seq 0 n.

(** [bw.getbbox()]: the bounding box of the non-zero pixels. *)
Definition getbbox (g : Gray) : option rect :=
  let lit x y := negb (px g x y =? 0) in
  let cols := filter (fun x => existsb (fun y => lit x y) (range (height g)))
                (range (width g)) in
  let rows := filter (fun y => existsb (fun x => lit x y) (range (width g)))
                (range (height g)) in
  match cols, rows with
  | x1 :: _, y1 :: _ =>
      Some (Z.of_nat x1, Z.of_nat y1,
            Z.of_nat (last cols O) + 1, Z.of_nat (last rows O) + 1)
  | _, _ => None
  end.

(** [int(x)] of a float *)
Definition py_int (q : Q) : Z := if Qle_bool 0 q then Qfloor q else Qceiling q.

Definition count {A} (p : A -> bool) (l : list A) : Z :=
  Z.of_nat (List.length (filter p l)).

Definition zsum (l : list Z) : Z := fold_right Z.add 0 l.

(** [a.max()] of an array of counts (all non-negative) *)
Definition maximum (l : list Z) : Z := fold_right Z.max 0 l.

(** What the extractor takes from Pillow, numpy, ImageDraw and the OCR reader
    beyond index arithmetic.  Drawing is done in place: it leaves the size of
    the image as it is. *)
Class Capabilities : Type :=
  { (** the luminance of one pixel under [convert("L")] *)
    luma : rgb -> Z;
    (** the lookup table [ImageOps.autocontrast] derives from an image *)
    autocontrast_lut : Gray -> Z -> Z;
    (** [reader.readtext(arr, detail=0[, allowlist=...])] *)
    readtext : Gray -> option text -> list text;
    (** [draw.rectangle(box, outline=color, width=w)] *)
    draw_rectangle : Image -> rect -> text -> Z -> Image;
    (** [draw.text(xy, label, fill=color)] *)
    draw_text : Image -> Z * Z -> text -> text -> Image;
    draw_rectangle_size :
      forall im r color w, size (draw_rectangle im r color w) = size im;
    draw_text_size :
      forall im xy label color, size (draw_text im xy label color) = size im }.

(** ** The job directory *)

Inductive content : Type :=
| PdfDocument (pages : list Image)   (* pages as PyMuPDF renders them at Matrix(2.0, 2.0) *)
| RasterImage (img : Image)          (* a file Pillow decodes *)
| OtherData.                         (* anything else *)

Record entry : Type := { name : text; is_file : bool; data : content }.

Definition JobDir : Type := list entry.

Fixpoint lookup (dir : JobDir) (n : text) : option entry :=
  match dir with
  | [] => None
  | e :: rest => if Txt.eqb (name e) n then Some e else lookup rest n
  end.

(** [Image.open] of a directory entry *)
Definition open_entry (e : entry) : result Image :=
  match data e with
  | RasterImage img => Ok img
  | _ => Raise UnidentifiedImageError
  end.

(** [Image.open(job_dir / n)] *)
Definition image_open (dir : JobDir) (n : text) : result Image :=
  match lookup dir n with
  | Some e => open_entry e
  | None => Raise FileNotFoundError
  end.

(** The directory once the picture [img] is the file [n]. *)
Fixpoint write (dir : JobDir) (n : text) (img : Image) : JobDir :=
  match dir with
  | [] => [{| name := n; is_file := true; data := RasterImage img |}]
  | e :: rest =>
      if Txt.eqb (name e) n
      then {| name := n; is_file := true; data := RasterImage img |} :: rest
      else e :: write rest n img
  end.

(** [img.save(job_dir / n)]: the encoder of Pillow refuses an image without
    pixels ("tile cannot extend outside image"). *)
Definition save (dir : JobDir) (n : text) (img : Image) : result JobDir :=
  if is_empty img then Raise SystemError else Ok (write dir n img).

(** ** Layout constants *)

Definition HEADER_BOXES : list (text * box_norm_t) :=
  [ ("construction_number", (0.135, 0.112, 0.395, 0.145)%Q);
    ("orderer",             (0.135, 0.158, 0.395, 0.185)%Q);
    ("construction_name",   (0.135, 0.200, 0.395, 0.230)%Q);
    ("project_title",       (0.405, 0.180, 0.790, 0.230)%Q) ].

Definition DIAGRAM_BOX : box_norm_t := (0.06, 0.26, 0.94, 0.62)%Q.
Definition TABLE_BOX : box_norm_t := (0.06, 0.67, 0.94, 0.95)%Q.

Definition TABLE_TITLE_BOX : box_norm_t := (0.085, 0.12, 0.81, 0.20)%Q.

Definition PART_X : Q * Q := (0.00, 0.086)%Q.
Definition GRID_X : Q * Q := (0.086, 0.81)%Q.
Definition DATE_X : Q * Q := (0.81, 0.91)%Q.
Definition CONFIRM_X : Q * Q := (0.91, 1.00)%Q.

Definition ROW_BOXES : list box_norm_t :=
  [ (0.00, 0.44, 1.00, 0.59)%Q;
    (0.00, 0.59, 1.00, 0.75)%Q;
    (0.00, 0.75, 1.00, 0.90)%Q ].

Definition MONTH_NAMES : list (Z * text) :=
  [ (1, "January"); (2, "February"); (3, "March"); (4, "April");
    (5, "May"); (6, "June"); (7, "July"); (8, "August");
    (9, "September"); (10, "October"); (11, "November"); (12, "December") ].

(** [d[k]] on a dictionary with integer keys *)
Fixpoint dict_get {V} (d : list (Z * V)) (k : Z) : result V :=
  match d with
  | [] => Raise KeyError
  | (k', v) :: rest => if k' =? k then Ok v else dict_get rest k
  end.

(** ** Helpers of the extractor *)

Section Extractor.

Context {uni : Unicode} {cap : Capabilities}.

(** [img.convert("L")] *)
Definition convert_L (img : Image) : Gray := map_image luma img.

(** [ImageOps.autocontrast(g)]: the image passed through its own table. *)
Definition autocontrast (g : Gray) : Gray := map_image (autocontrast_lut g) g.

Definition _find_input_file (job_dir : JobDir) : result entry :=
  match find (fun p => Py.startswith (name p) "input" && is_file p) job_dir with
  | Some p => Ok p
  | None => Raise FileNotFoundError
  end.

(** The bytes of the rendering are written as they come: no encoder of
    Pillow is involved. *)
Definition _render_pdf_page0_to_png (pdf : entry) (out_png : text)
  (dir : JobDir) : result JobDir :=
  match data pdf with
  | PdfDocument (page :: _) => Ok (write dir out_png page)
  | PdfDocument [] => Raise ValueError
  | _ => Raise FileDataError
  end.

Definition crop_norm (dir : JobDir) (img_path out_path : text)
  (box_norm : box_norm_t) (pad_px : Z) : result (JobDir * rect) :=
  img0 <- image_open dir img_path ;;
  let img := convert_RGB img0 in
  let '(W, H) := size img in
  let '(l, t, r, b) := box_norm in
  let x1 := Z.max 0 (py_int (l * inject_Z W) - pad_px) in
  let y1 := Z.max 0 (py_int (t * inject_Z H) - pad_px) in
  let x2 := Z.min W (py_int (r * inject_Z W) + pad_px) in
  let y2 := Z.min H (py_int (b * inject_Z H) + pad_px) in
  c <- crop img (x1, y1, x2, y2) ;;
  dir <- save dir out_path c ;;
  Ok (dir, (x1, y1, x2, y2)).

Definition crop_from_image_norm (img : Image) (box_norm : box_norm_t)
  (pad_px : Z) : result Image :=
  let img := convert_RGB img in
  let '(W, H) := size img in
  let '(l, t, r, b) := box_norm in
  let x1 := Z.max 0 (py_int (l * inject_Z W) - pad_px) in
  let y1 := Z.max 0 (py_int (t * inject_Z H) - pad_px) in
  let x2 := Z.min W (py_int (r * inject_Z W) + pad_px) in
  let y2 := Z.min H (py_int (b * inject_Z H) + pad_px) in
  crop img (x1, y1, x2, y2).

Definition preprocess_printed (img : Image) : Gray :=
  let g := convert_L img in
  let g := autocontrast g in
  point (fun p => if 175 <? p then 255 else 0) g.

Definition preprocess_handwriting_soft (img : Image) : Gray :=
  let g := convert_L img in
  autocontrast g.

Definition _tighten_to_content (img : Image) : result Image :=
  let g := convert_L img in
  let inv := invert g in
  let inv := autocontrast inv in
  let bw := point (fun p => if 40 <? p then 255 else 0) inv in
  match getbbox bw with
  | None => Ok img
  | Some (x1, y1, x2, y2) =>
      let pad := 8 in
      let x1 := Z.max 0 (x1 - pad) in
      let y1 := Z.max 0 (y1 - pad) in
      let x2 := Z.min (fst (size img)) (x2 + pad) in
      let y2 := Z.min (snd (size img)) (y2 + pad) in
      crop img (x1, y1, x2, y2)
  end.

(** [img.resize] refuses a size that is not positive. *)
Definition _upscale (img : Image) (scale : Z) : result Image :=
  let '(w, h) := size img in
  if (w <=? 1) || (h <=? 1) then Ok img
  else if scale <=? 0 then Raise ValueError
  else Ok (resize_nearest img (Z.to_nat scale)).

Definition nonempty (s : text) : bool :=
  match s with EmptyText => false | _ => true end.

Definition ocr_easy (img : Image) (handwriting : bool)
  (allowlist : option text) : text :=
  let pre := if handwriting then preprocess_handwriting_soft img
             else preprocess_printed img in
  let kwargs := match allowlist with
                | Some a => if nonempty a then Some a else None
                | None => None
                end in
  let texts := readtext pre kwargs in
  Py.strip
    (Py.join " "
       (map Py.strip
          (filter (fun t => nonempty t && nonempty (Py.strip t)) texts))).

Definition clean_part_number (s : text) : text :=
  let s := Py.strip (Py.replace " " "" s) in
  let s := Py.replace "DBll" "DB11" (Py.replace "DB1l" "DB11" s) in
  let s := Py.replace "–" "-" (Py.replace "—" "-" s) in
  s.

Definition _looks_like_straight_one (cell_img : Image) : bool :=
  let g := convert_L cell_img in
  let g := autocontrast g in
  let ink x y := px g x y <? 170 in
  let h := height g in
  let w := width g in
  if (Z.of_nat h <? 10) || (Z.of_nat w <? 10) then false
  else
    let row := map (fun y => count (fun x => ink x y) (range w)) (range h) in
    let ink_count := zsum row in
    if ink_count <? 18 then false
    else
      let col := map (fun x => count (fun y => ink x y) (range h)) (range w) in
      let peak := maximum col in
      if peak <=? 0 then false
      else
        let active_cols :=
          count (fun c => negb (Qle_bool (inject_Z c) (0.20 * inject_Z peak))) col in
        let thin :=
          active_cols <=? Z.max 2 (py_int (0.20 * inject_Z (Z.of_nat w))) in
        let active_rows := count (fun r => 0 <? r) row in
        let tall := py_int (0.50 * inject_Z (Z.of_nat h)) <=? active_rows in
        let not_blob := active_cols <=? py_int (0.30 * inject_Z (Z.of_nat w)) in
        thin && tall && not_blob.

(** The text [parse_numeric_cell] searches: lines 207-215. *)
Definition numeric_text (raw : text) : text :=
  let s := Py.strip raw in
  let s := Py.replace " " "" s in
  let s := Py.replace "－" "-" (Py.replace "＋" "+" s) in
  let s := Py.replace "o" "0" (Py.replace "O" "0" s) in
  let s := Py.replace "|" "1" (Py.replace "l" "1" (Py.replace "I" "1" s)) in
  s.

Definition parse_numeric_cell (raw : text) (cell_img : option Image)
  : result text :=
  let s := numeric_text raw in
  match Re.search NUMERIC_RE s with
  | Some m =>
      let num := Re.text_of m in
      match Py.split_once (ch ".") num with
      | Some (left_, right_) => Ok (left_ ++ "." ++ Py.take 1 right_)
      | None => Ok num
      end
  | None =>
      match cell_img with
      | Some img =>
          ti <- _tighten_to_content img ;;
          bi <- _upscale ti 7 ;;
          if _looks_like_straight_one bi then Ok "+1" else Ok ""
      | None => Ok ""
      end
  end.

Definition _parse_month_day_from_any_separators (text_ : text)
  : result (text * option (Z * Z)) :=
  let cand := Py.strip text_ in
  if negb (nonempty cand) then Ok ("", None)
  else
    let cand := Py.replace "l" "1" (Py.replace "I" "1" cand) in
    let cand := Py.replace "|" "/" (Py.replace "\" "/" cand) in
    match Re.search MONTH_DAY_RE cand with
    | Some m =>
        g1 <- Re.group m 1 ;; mm <- Py.int g1 ;;
        g2 <- Re.group m 2 ;; dd <- Py.int g2 ;;
        Ok (cand, Some (mm, dd))
    | None =>
        let parts := filter Py.isdigit (Re.split_ws cand) in
        match parts with
        | p0 :: p1 :: _ =>
            mm <- Py.int p0 ;; dd <- Py.int p1 ;;
            Ok (cand, Some (mm, dd))
        | _ =>
            let digits := Re.sub_nondigits cand in
            let n := Txt.length digits in
            if Nat.eqb n 2 || Nat.eqb n 3 || Nat.eqb n 4 then
              d0 <- Py.index digits 0 ;; mm <- Py.int d0 ;;
              dd <- (if Nat.leb 3 n then Py.int (Py.drop 1 digits)
                     else d1 <- Py.index digits 1 ;; Py.int d1) ;;
              Ok (cand, Some (mm, dd))
            else Ok (cand, None)
        end
    end.

(** Lines 281-289 of [ocr_date_cell]: from the recognized text on. *)
Definition date_of_raw (raw : text) : result (text * text) :=
  '(_, md) <- _parse_month_day_from_any_separators raw ;;
  match md with
  | None => Ok ("", raw)
  | Some (month, day) =>
      if negb ((1 <=? month) && (month <=? 12) && (1 <=? day) && (day <=? 31))
      then Ok ("", raw)
      else
        mname <- dict_get MONTH_NAMES month ;;
        Ok (mname ++ " " ++ Py.str day, raw)
  end.

Definition ocr_date_cell (date_img : Image) : result (text * text) :=
  tight <- _tighten_to_content date_img ;;
  big <- _upscale tight 7 ;;
  let raw := ocr_easy big true (Some "0123456789/") in
  date_of_raw raw.

(** ** Debug renderers *)

(** One entry of [bboxes_px]: the rectangle, its colour and its label. *)
Definition labelled_box : Type := (rect * text * text)%type.

Definition save_debug_bbox (dir : JobDir) (img_path out_path : text)
  (bboxes_px : list labelled_box) : result JobDir :=
  img0 <- image_open dir img_path ;;
  let img := convert_RGB img0 in
  let step (im : Image) (bb : labelled_box) : Image :=
    let '(x1, y1, x2, y2, color, label) := bb in
    let im := draw_rectangle im (x1, y1, x2, y2) color 4 in
    if nonempty label then draw_text im (x1 + 6, y1 + 6) label color else im in
  save dir out_path (fold_left step bboxes_px img).

(** [enumerate(l, start)] *)
Fixpoint enumerate {A} (start : Z) (l : list A) : list (Z * A) :=
  match l with
  | [] => []
  | a :: rest => (start, a) :: enumerate (start + 1) rest
  end.

Definition save_table_debug (dir : JobDir) (table_img : Image)
  (out_path : text) : result JobDir :=
  let img := convert_RGB table_img in
  let '(W, H) := size img in
  let rect_ (im : Image) (box : box_norm_t) (color label : text) : Image :=
    let '(l, t, r, b) := box in
    let x1 := py_int (l * inject_Z W) in
    let y1 := py_int (t * inject_Z H) in
    let x2 := py_int (r * inject_Z W) in
    let y2 := py_int (b * inject_Z H) in
    draw_text (draw_rectangle im (x1, y1, x2, y2) color 3)
      (x1 + 4, y1 + 4) label color in
  let img := rect_ img TABLE_TITLE_BOX "red" "TITLE_RAW" in
  let img := fold_left
               (fun im '(i, rb) => rect_ im rb "cyan" ("ROW" ++ Py.str (i + 1)))
               (enumerate 0 ROW_BOXES) img in
  let img := rect_ img (fst PART_X, 0.44, snd PART_X, 0.90)%Q "blue" "PART" in
  let img := rect_ img (fst GRID_X, 0.44, snd GRID_X, 0.90)%Q "green" "GRID" in
  let img := rect_ img (fst DATE_X, 0.44, snd DATE_X, 0.90)%Q "orange" "DATE" in
  let img := rect_ img (fst CONFIRM_X, 0.44, snd CONFIRM_X, 0.90)%Q "purple" "CONFIRM" in
  save dir out_path img.

(** ** The extractor *)

Record RowRecord : Type :=
  { part_number : text;
    lu : list text;
    lc : list text;
    lb : list text;
    inspection_date : text;
    _date_raw : text;
    confirmer : text }.

Record Assets : Type :=
  { page0_image : text;
    diagram_image : text;
    table_image : text;
    debug_bbox : text;
    table_debug_grid : text;
    header_crops : list (text * text);
    row_crops : list (text * list (text * text)) }.

Record Extraction : Type :=
  { template : text;
    header : list (text * text);
    table_title_raw : text;
    assets : Assets;
    rows : list RowRecord }.

(** [d[k] = v] on a dictionary with string keys, in insertion order *)
Fixpoint dict_set {V} (d : list (text * V)) (k : text) (v : V)
  : list (text * V) :=
  match d with
  | [] => [(k, v)]
  | (k', v') :: rest =>
      if Txt.eqb k' k then (k, v) :: rest else (k', v') :: dict_set rest k v
  end.

Fixpoint foldM {A S} (f : S -> A -> result S) (l : list A) (s : S) : result S :=
  match l with
  | [] => Ok s
  | a :: rest => s' <- f s a ;; foldM f rest s'
  end.

(** [l[a:b]] *)
Definition slice {A} (a b : nat) (l : list A) : list A :=
  firstn (b - a) (skipn a l).

Definition asset_url (job_id file : text) : text :=
  "/v1/jobs/" ++ job_id ++ "/asset/" ++ file.

(** The body of the loop over [HEADER_BOXES]. *)
Definition header_step (job_id page0_png : text)
  (st : JobDir * list (text * text) * list (text * text) * list labelled_box)
  (kb : text * box_norm_t)
  : result (JobDir * list (text * text) * list (text * text) * list labelled_box) :=
  let '(dir, header, header_assets, header_bboxes_px) := st in
  let '(key, box) := kb in
  let out_img := "header_" ++ key ++ ".png" in
  '(dir, bbox) <- crop_norm dir page0_png out_img box 10 ;;
  let header_bboxes_px :=
    (header_bboxes_px ++ [(bbox, "green", ("H_" ++ key)%text)])%list in
  let header_assets :=
    dict_set header_assets key
      (asset_url job_id ("header_" ++ key ++ ".png")) in
  img <- image_open dir out_img ;;
  let header := dict_set header key (ocr_easy img false None) in
  Ok (dir, header, header_assets, header_bboxes_px).

(** The body of the loop over the 12 cells of a grid. *)
Definition cell_step (grid_img : Image) (cells : list text) (c : Z)
  : result (list text) :=
  let '(gw, gh) := size grid_img in
  let x1 := py_int ((inject_Z c / 12) * inject_Z gw) in
  let x2 := py_int ((inject_Z (c + 1) / 12) * inject_Z gw) in
  cell_img <- crop grid_img (x1, 0, x2, gh) ;;
  let raw_cell := ocr_easy cell_img true (Some "+-0123456789.Iil|") in
  v <- parse_numeric_cell raw_cell (Some cell_img) ;;
  Ok (cells ++ [v])%list.

(** The body of the loop over [ROW_BOXES]. *)
Definition row_step (job_id : text) (table_img : Image)
  (st : JobDir * list RowRecord * list (text * list (text * text)))
  (ib : Z * box_norm_t)
  : result (JobDir * list RowRecord * list (text * list (text * text))) :=
  let '(dir, rows_out, row_assets) := st in
  let '(idx, rb) := ib in
  row_img <- crop_from_image_norm table_img rb 0 ;;
  part_img <- crop_from_image_norm row_img (fst PART_X, 0.0, snd PART_X, 1.0)%Q 2 ;;
  grid_img <- crop_from_image_norm row_img (fst GRID_X, 0.0, snd GRID_X, 1.0)%Q 2 ;;
  date_img <- crop_from_image_norm row_img (fst DATE_X, 0.0, snd DATE_X, 1.0)%Q 2 ;;
  conf_img <- crop_from_image_norm row_img (fst CONFIRM_X, 0.0, snd CONFIRM_X, 1.0)%Q 2 ;;
  let part_path := "part_row" ++ Py.str idx ++ ".png" in
  let date_path := "date_row" ++ Py.str idx ++ ".png" in
  let conf_path := "confirmer_row" ++ Py.str idx ++ ".png" in
  dir <- save dir part_path part_img ;;
  dir <- save dir date_path date_img ;;
  dir <- save dir conf_path conf_img ;;
  let row_assets :=
    dict_set row_assets ("row" ++ Py.str idx)
      [ ("part", asset_url job_id ("part_row" ++ Py.str idx ++ ".png"));
        ("date", asset_url job_id ("date_row" ++ Py.str idx ++ ".png"));
        ("confirmer",
         asset_url job_id ("confirmer_row" ++ Py.str idx ++ ".png")) ] in
  let part_number :=
    clean_part_number (ocr_easy part_img false (Some "DB0123456789-")) in
  cells <- foldM (cell_step grid_img) (map Z.of_nat (range 12)) [] ;;
  let lu := slice 0 4 cells in
  let lc := slice 4 8 cells in
  let lb := slice 8 12 cells in
  '(inspection_date, date_raw) <- ocr_date_cell date_img ;;
  let confirmer := Py.strip (Py.replace " " "" (ocr_easy conf_img true None)) in
  Ok (dir,
      (rows_out ++
        [ {| part_number := part_number;
             lu := lu; lc := lc; lb := lb;
             inspection_date := inspection_date;
             _date_raw := date_raw;
             confirmer := confirmer |} ])%list,
      row_assets).

Definition TITLE_ALLOWLIST : text :=
  "ABCDEFGHIJKLMNOPQRSTUVWXYZabcdefghijklmnopqrstuvwxyz0123456789+-/()._ 曲率R".

Definition extract_inner_curvature (job_dir : JobDir) (job_id : text)
  : result (JobDir * Extraction) :=
  input_path <- _find_input_file job_dir ;;
  let page0_png := "page0.png" in
  let diagram_png := "diagram.png" in
  let table_png := "table.png" in
  let debug_bbox_png := "debug_bbox.png" in
  let table_debug_png := "table_debug_grid.png" in
  dir <- (if Txt.eqb (Py.lower (Py.suffix (name input_path))) ".pdf"
          then _render_pdf_page0_to_png input_path page0_png job_dir
          else img <- open_entry input_path ;;
               save job_dir page0_png (convert_RGB img)) ;;
  '(dir, diagram_bbox) <- crop_norm dir page0_png diagram_png DIAGRAM_BOX 20 ;;
  '(dir, table_bbox) <- crop_norm dir page0_png table_png TABLE_BOX 10 ;;
  '(dir, header, header_assets, header_bboxes_px) <-
    foldM (header_step job_id page0_png) HEADER_BOXES (dir, [], [], []) ;;
  table_img0 <- image_open dir table_png ;;
  let table_img := convert_RGB table_img0 in
  dir <- save_table_debug dir table_img table_debug_png ;;
  title_img <- crop_from_image_norm table_img TABLE_TITLE_BOX 4 ;;
  let title_raw := ocr_easy title_img false (Some TITLE_ALLOWLIST) in
  '(dir, rows_out, row_assets) <-
    foldM (row_step job_id table_img) (enumerate 1 ROW_BOXES) (dir, [], []) ;;
  dir <- save_debug_bbox dir page0_png debug_bbox_png
           ([ (diagram_bbox, "red", "DIAGRAM"); (table_bbox, "blue", "TABLE") ]
              ++ header_bboxes_px)%list ;;
  Ok (dir,
      {| template := "inner_curvature_v1";
         header := header;
         table_title_raw := title_raw;
         assets :=
           {| page0_image := asset_url job_id "page0.png";
              diagram_image := asset_url job_id "diagram.png";
              table_image := asset_url job_id "table.png";
              debug_bbox := asset_url job_id "debug_bbox.png";
              table_debug_grid := asset_url job_id "table_debug_grid.png";
              header_crops := header_assets;
              row_crops := row_assets |};
         rows := rows_out |}).

End Extractor.


(** * Specification-side definitions *)

(** ** Text *)

(** The longest prefix of [s] made of characters of class [p], and the rest. *)
Fixpoint span (p : char -> bool) (s : text) : text * text :=
  match s with
  | Text c s' =>
      if p c then let (a, b) := span p s' in (Text c a, b)
      else (EmptyText, s)
  | EmptyText => (EmptyText, EmptyText)
  end.





Section TextSpec.
Context {uni : Unicode}.








(** ** The language of a pattern

    [matches r w g]: the pattern [r] reads exactly [w], its groups capturing
    [g] in the order in which they close. *)
Inductive matches : Re.regex -> text -> list text -> Prop :=
| M_cls p c :
    p c = true -> matches (Re.Cls p) (Text c "") []
| M_rep p lo hi w :
    Py.all_chars p w = true ->
    (lo <= Txt.length w)%nat ->
    (forall h, hi = Some h -> (Txt.length w <= h)%nat) ->
    matches (Re.Rep p lo hi) w []
| M_cat r1 r2 w1 w2 g1 g2 :
    matches r1 w1 g1 -> matches r2 w2 g2 ->
    matches (Re.Cat r1 r2) (w1 ++ w2) (g1 ++ g2)%list
| M_opt_some r w g :
    matches r w g -> matches (Re.Opt r) w g
| M_opt_none r :
    matches (Re.Opt r) "" []
| M_grp r w g :
    matches r w g -> matches (Re.Grp r) w (g ++ [w])%list.

(** ** Dates *)

(** Two runs of one or two decimal digits, [g1] and [g2], with one or more
    characters that are not decimal digits, [sep], between them. *)
Definition month_day_shape (g1 sep g2 : text) : Prop :=
  Py.isdecimal g1 = true /\ (Txt.length g1 <= 2)%nat /\
  Py.isdecimal g2 = true /\ (Txt.length g2 <= 2)%nat /\
  sep <> "" /\ Py.all_chars Py.not_decimal sep = true.

(** The value of a run of decimal digits. *)
Definition value (ds : text) : Z := Py.digits_value 0 ds.

(** The text the date strategies work on: I and l read as 1, backslash and
    pipe read as a slash, white space trimmed at both ends. *)
Definition date_candidate (raw : text) : text :=
  Py.replace "|" "/" (Py.replace "\" "/"
    (Py.replace "l" "1" (Py.replace "I" "1" (Py.strip raw)))).

(** (a) the first two runs of 1-2 decimal digits separated by characters
    that are not decimal digits *)
Definition strategy_a (cand : text) : option (Z * Z) :=
  match Re.search MONTH_DAY_RE cand with
  | Some m =>
      match Re.groups m with
      | [g1; g2] => Some (value g1, value g2)
      | _ => None
      end
  | None => None
  end.

(** The pieces of the white-space split that [str.isdigit] accepts. *)
Definition numeric_tokens (cand : text) : list text :=
  filter Py.isdigit (Re.split_ws cand).

(** (b) the first two of these pieces, when there are two or more, converted
    by [int] *)
Definition strategy_b (cand : text) : option (result (Z * Z)) :=
  match numeric_tokens cand with
  | p0 :: p1 :: _ => Some (mm <- Py.int p0 ;; dd <- Py.int p1 ;; Ok (mm, dd))
  | _ => None
  end.

(** (c) the decimal digits alone, when there are 2, 3 or 4 of them: the
    first is the month and the remainder the day *)
Definition strategy_c (cand : text) : option (Z * Z) :=
  match Py.filter_chars Py.is_decimal cand with
  | Text d0 rest =>
      match Txt.length rest with
      | 1%nat | 2%nat | 3%nat => Some (value (Text d0 ""), value rest)
      | _ => None
      end
  | EmptyText => None
  end.

Definition or_else {A} (a b : option A) : option A :=
  match a with Some _ => a | None => b end.

(** The strategies in order: the first that applies decides. *)
Definition month_day (cand : text) : result (option (Z * Z)) :=
  match strategy_a cand with
  | Some md => Ok (Some md)
  | None =>
      match strategy_b cand with
      | Some r => md <- r ;; Ok (Some md)
      | None => Ok (strategy_c cand)
      end
  end.

(** Some character of [s] is of class [p]. *)
Fixpoint any_char (p : char -> bool) (s : text) : bool :=
  match s with
  | EmptyText => false
  | Text c s' => p c || any_char p s'
  end.

(** A decimal digit followed at once by a character that is not one, with a
    decimal digit somewhere after it. *)
Definition has_gap (x : text) : Prop :=
  exists a d w b,
    x = a ++ Text d (Text w b)
    /\ Py.is_decimal d = true /\ Py.not_decimal w = true
    /\ any_char Py.is_decimal b = true.

(** Every digit of the text is a decimal digit, as every digit of ASCII is:
    the text holds no superscript, circled or other digit that [str.isdigit]
    accepts and [int] does not read. *)
Definition plain_digits (s : text) : bool :=
  Py.all_chars (fun c => implb (Py.is_digit c) (Py.is_decimal c)) s.

Definition month_name (m : Z) : text :=
  nth (Z.to_nat (m - 1))
    [ "January"; "February"; "March"; "April"; "May"; "June"; "July";
      "August"; "September"; "October"; "November"; "December" ] "".

(** "<MonthName> <day>" for a valid month and day, the empty text otherwise. *)
Definition date_text (md : option (Z * Z)) : text :=
  match md with
  | Some (m, d) =>
      if ((1 <=? m) && (m <=? 12) && (1 <=? d) && (d <=? 31))%Z
      then month_name m ++ " " ++ Py.str d
      else ""
  | None => ""
  end.

End TextSpec.

(** ** Geometry *)

(** A normalized box: components in [0,1], left < right, top < bottom. *)
Definition valid_box (box : box_norm_t) : Prop :=
  let '(l, t, r, b) := box in
  (0 <= l /\ l < r /\ r <= 1 /\ 0 <= t /\ t < b /\ b <= 1)%Q.

(** The box scaled to a [W] x [H] image, padded outward by [pad] pixels on
    its four sides and clamped to the image. *)
Definition pixel_rect (sz : Z * Z) (box : box_norm_t) (pad : Z) : rect :=
  let '(W, H) := sz in
  let '(l, t, r, b) := box in
  (Z.max 0 (py_int (l * inject_Z W) - pad),
   Z.max 0 (py_int (t * inject_Z H) - pad),
   Z.min W (py_int (r * inject_Z W) + pad),
   Z.min H (py_int (b * inject_Z H) + pad)).

(** ** The straight stroke

    The quantities the heuristic is stated with, on the autocontrasted
    grey-level image [g] of a cell. *)

Section StrokeSpec.
Context {cap : Capabilities}.


(** Ink is an intensity below 170. *)
Definition ink_at (g : Gray) (x y : nat) : bool := (px g x y <? 170)%Z.


Definition row_ink (g : Gray) (y : nat) : Z :=
  count (fun x => ink_at g x y) (range (width g)).





(** The rows containing any ink. *)
Definition active_rows (g : Gray) : Z :=
  count (fun y => (0 <? row_ink g y)%Z) (range (height g)).


End StrokeSpec.

(** ** The extraction *)

(** What the input lookup accepts: a regular file whose name starts with
    "input". *)
Definition qualifies (p : entry) : bool :=
  Py.startswith (name p) "input" && is_file p.

(** The page image of an input file: page 0 of a PDF (chosen by the suffix),
    or the decoded picture. *)
Definition rasterized (p : entry) : result Image :=
  if Txt.eqb (Py.lower (Py.suffix (name p))) ".pdf"
  then match data p with
       | PdfDocument (page :: _) => Ok page
       | PdfDocument [] => Raise ValueError
       | _ => Raise FileDataError
       end
  else match data p with
       | RasterImage img => Ok img
       | _ => Raise UnidentifiedImageError
       end.

(** The full-height band of a row between two fractions of its width. *)
Definition band (X : Q * Q) : box_norm_t := (fst X, 0.0, snd X, 1.0)%Q.

(** The pixel rectangle of the [c]-th twelfth of a grid. *)
Definition cell_rect (grid_img : Image) (c : Z) : rect :=
  let '(gw, gh) := size grid_img in
  (py_int ((inject_Z c / 12) * inject_Z gw), 0%Z,
   py_int ((inject_Z (c + 1) / 12) * inject_Z gw), gh).

(** An image of at least [w] x [h] pixels. *)
Definition sized {A} (w h : nat) (img : image A) : Prop :=
  (w <= width img)%nat /\ (h <= height img)%nat.

(** A box that takes up a pixel or more of an image [w] pixels wide and [h]
    pixels high: at least one [w]-th of the width and one [h]-th of the
    height. *)
Definition spans (w h : Z) (box : box_norm_t) : Prop :=
  let '(l, t, r, b) := box in
  (1 <= (r - l) * inject_Z w)%Q /\ (1 <= (b - t) * inject_Z h)%Q.

(** ** How a computation ends *)

(** [m] returns a value that satisfies [Q], or raises an exception that
    satisfies [E]. *)
Definition outcome {A} (E : exn -> Prop) (Q : A -> Prop) (m : result A) : Prop :=
  match m with
  | Ok a => Q a
  | Raise e => E e
  end.

(** The two ways the extraction ends early once its page is there: a save
    refused, under the condition [small], and a number not read, under the
    condition [garbled]. *)
Definition aborts (small garbled : Prop) (e : exn) : Prop :=
  (e = SystemError /\ small) \/ (e = ValueError /\ garbled).

(** The state of the loop over the header boxes. *)
Definition header_state : Type :=
  (JobDir * list (text * text) * list (text * text) * list labelled_box)%type.

Section ExtractionSpec.
Context {uni : Unicode} {cap : Capabilities}.

(** The reader answers the date allowlist with plain digits. *)
Definition plain_reader : Prop :=
  forall g, Forall (fun t => plain_digits t = true)
              (readtext g (Some "0123456789/")).

(** The value of cell [c] of a grid: recognized, then parsed. *)
Definition cell_value (grid_img : Image) (c : Z) : result text :=
  cell_img <- crop grid_img (cell_rect grid_img c) ;;
  parse_numeric_cell (ocr_easy cell_img true (Some "+-0123456789.Iil|"))
    (Some cell_img).

(** [row] is the record of the row cut from [table_img] at [rb]: its fields
    come from the four bands of the row, and its 12 cell values, [lu] then
    [lc] then [lb], from the twelfths of the grid band in increasing order. *)
Definition row_of (table_img : Image) (rb : box_norm_t) (row : RowRecord) : Prop :=
  exists row_img part_img grid_img date_img conf_img,
    crop_from_image_norm table_img rb 0 = Ok row_img
    /\ crop_from_image_norm row_img (band PART_X) 2 = Ok part_img
    /\ crop_from_image_norm row_img (band GRID_X) 2 = Ok grid_img
    /\ crop_from_image_norm row_img (band DATE_X) 2 = Ok date_img
    /\ crop_from_image_norm row_img (band CONFIRM_X) 2 = Ok conf_img
    /\ part_number row
       = clean_part_number (ocr_easy part_img false (Some "DB0123456789-"))
    /\ Forall2 (fun c v => cell_value grid_img c = Ok v)
         (map Z.of_nat (range 12)) (lu row ++ lc row ++ lb row)%list
    /\ List.length (lu row) = 4%nat
    /\ List.length (lc row) = 4%nat
    /\ List.length (lb row) = 4%nat
    /\ ocr_date_cell date_img = Ok (inspection_date row, _date_raw row)
    /\ confirmer row = Py.strip (Py.replace " " "" (ocr_easy conf_img true None)).

End ExtractionSpec.

(** ** Fixtures *)

Module Fixture.

(** A piece of the Unicode database: the no-break space and the ideographic
    space; the full-width digits, with their values; the superscript digits,
    which have none. *)
Definition fw_digit (c : char) : bool := ((65296 <=? c) && (c <=? 65305))%N.

Definition superscript (c : char) : bool :=
  ((c =? 178) || (c =? 179) || (c =? 185))%N.

Program Definition unicode : Unicode :=
  {| wide_space := fun c => ((c =? 160) || (c =? 12288))%N;
     wide_decimal := fun c => if fw_digit c then Some (Z.of_N c - 65296)%Z else None;
     wide_digit := fun c => fw_digit c || superscript c |}.
Next Obligation.
  unfold fw_digit in H. destruct ((65296 <=? c) && (c <=? 65305))%N eqn:E;
    [|discriminate]. injection H as <-.
  apply andb_true_iff in E. destruct E as [A B].
  apply N.leb_le in A, B. lia.
Qed.
Next Obligation.
  destruct (fw_digit c); [reflexivity | discriminate].
Qed.
Next Obligation.
  unfold fw_digit, superscript in H.
  destruct (N.eqb_spec c 160) as [->|_]; [discriminate H|].
  destruct (N.eqb_spec c 12288) as [->|_]; [discriminate H | reflexivity].
Qed.
Next Obligation.
  destruct H as [-> | ->]; split; reflexivity.
Qed.

Definition white : rgb := (255, 255, 255).

Definition allowed (allow : option text) (a : text) : bool :=
  match allow with Some b => Txt.eqb a b | None => false end.

(** ITU-R 601-2 luma in 16-bit fixed point; a lookup table that leaves
    every level in place (the table of an image spanning 0..255); a reader
    whose answer depends on the allowlist only; drawing left out. *)
Program Definition caps : Capabilities :=
  {| luma := fun '(r, g, b) =>
               (r * 19595 + g * 38470 + b * 7471 + 32768) / 65536;
     autocontrast_lut := fun _ p => p;
     readtext := fun _ allow =>
                   if allowed allow "0123456789/" then ["3/14"]
                   else if allowed allow "+-0123456789.Iil|" then []
                   else if allowed allow "DB0123456789-" then ["DB1l -3A"]
                   else ["J K"; " "; "x "];
     draw_rectangle := fun im _ _ _ => im;
     draw_text := fun im _ _ _ => im |}.


(** A white 120 x 120 page with a vertical pen stroke. *)
Definition page : Image :=
  {| width := 120; height := 120;
     px := fun x y => if Nat.eqb x 40 && Nat.leb 80 y then black else white |}.

Definition meta_txt : entry :=
  {| name := "meta.txt"; is_file := true; data := OtherData |}.

Definition input_png : entry :=
  {| name := "input.png"; is_file := true; data := RasterImage page |}.

(** A job directory as the upload endpoint leaves it. *)
Definition job_dir : JobDir := [ meta_txt; input_png ].

(** The same directory once the page has been rasterized. *)
Definition rendered_dir : JobDir := write job_dir "page0.png" page.



(** A cell with a pen stroke two pixels wide down its middle. *)
Definition stroke_cell : Image :=
  {| width := 12; height := 12;
     px := fun x y => if Nat.eqb x 5 || Nat.eqb x 6 then black else white |}.



Definition inputs_txt : entry :=
  {| name := "inputs.txt"; is_file := true; data := OtherData |}.

Definition input_copy_pdf : entry :=
  {| name := "input_copy.pdf"; is_file := true; data := PdfDocument [page] |}.

(** A sub-directory called "input". *)
Definition input_subdir : entry :=
  {| name := "input"; is_file := false; data := OtherData |}.

End Fixture.


(** * Properties *)

(** ** Text *)

Lemma Txt_eqb_refl (a : text) : Txt.eqb a a = true.
Proof. induction a as [|c a IH]; simpl; [reflexivity|]. now rewrite N.eqb_refl. Qed.

Lemma Txt_eqb_eq (a b : text) : Txt.eqb a b = true <-> a = b.
Proof.
  split; [|intros <-; apply Txt_eqb_refl].
  revert b. induction a as [|x a IH]; intros [|y b]; simpl; try discriminate; auto.
  intros H. apply andb_true_iff in H. destruct H as [E H].
  apply N.eqb_eq in E. subst. f_equal. now apply IH.
Qed.

Lemma Txt_eqb_neq (a b : text) : Txt.eqb a b = false <-> a <> b.
Proof.
  destruct (Txt.eqb a b) eqn:E.
  - apply Txt_eqb_eq in E. split; [discriminate | contradiction].
  - split; [|reflexivity]. intros _ H. apply Txt_eqb_eq in H. congruence.
Qed.

Section Strings.
Context {uni : Unicode}.

Lemma append_nil_r (s : text) : s ++ "" = s.
Proof. induction s; simpl; congruence. Qed.

Lemma append_assoc (a b c : text) : (a ++ b) ++ c = a ++ b ++ c.
Proof. induction a; simpl; congruence. Qed.

Lemma length_append (a b : text) :
  Txt.length (a ++ b) = (Txt.length a + Txt.length b)%nat.
Proof. induction a; simpl; congruence. Qed.

Lemma substring_head (w r : text) : Txt.substring 0 (Txt.length w) (w ++ r) = w.
Proof.
  induction w as [|c w IH]; simpl.
  - destruct r; reflexivity.
  - now rewrite IH.
Qed.

Lemma consumed_app (w r : text) : Re.consumed (w ++ r) r = w.
Proof.
  unfold Re.consumed. rewrite length_append.
  replace (Txt.length w + Txt.length r - Txt.length r)%nat
    with (Txt.length w) by lia.
  apply substring_head.
Qed.


(** Two ways of cutting one text: the shorter head is a Txt.prefix of the longer. *)
Lemma append_cut (a b c d : text) :
  a ++ b = c ++ d -> (Txt.length a <= Txt.length c)%nat ->
  exists e, c = a ++ e /\ b = e ++ d.
Proof.
  revert c. induction a as [|x a IH]; intros c H L; simpl in *.
  - exists c. split; [reflexivity | assumption].
  - destruct c as [|y c]; simpl in *; [lia|].
    injection H as -> H.
    destruct (IH c H) as [e [-> ->]]; [lia|].
    exists e. split; reflexivity.
Qed.

Lemma all_chars_app (p : char -> bool) (a b : text) :
  Py.all_chars p (a ++ b) = Py.all_chars p a && Py.all_chars p b.
Proof.
  induction a as [|c a IH]; simpl; [reflexivity|].
  rewrite IH. now rewrite andb_assoc.
Qed.

Lemma isdecimal_all (s : text) : Py.isdecimal s = true -> Py.all_chars Py.is_decimal s = true.
Proof. destruct s; simpl; [discriminate | auto]. Qed.

Lemma isdecimal_cons (s : text) :
  Py.isdecimal s = true ->
  exists c s', s = Text c s' /\ Py.is_decimal c = true /\ Py.all_chars Py.is_decimal s' = true.
Proof.
  destruct s as [|c s']; simpl; [discriminate|].
  intros H. apply andb_true_iff in H. destruct H. eauto.
Qed.

Lemma all_decimal_isdecimal (c : char) (s : text) :
  Py.all_chars Py.is_decimal (Text c s) = true -> Py.isdecimal (Text c s) = true.
Proof. auto. Qed.

(** *** [span] *)





(** After a span the next character, if any, is outside the class. *)
Lemma span_rest (p : char -> bool) (s : text) :
  span p (snd (span p s)) = ("", snd (span p s)).
Proof.
  induction s as [|c s IH]; simpl; [reflexivity|].
  destruct (p c) eqn:E.
  - destruct (span p s); simpl in *. assumption.
  - simpl. now rewrite E.
Qed.

End Strings.

(** ** The numeric pattern *)

Section RepFacts.
Variable R : Type.
Variable p : char -> bool.

End RepFacts.

Section NumericPattern.
Context {uni : Unicode}.


Lemma is_dot_not_decimal (c : char) : is_dot c = true -> Py.is_decimal c = false.
Proof. unfold is_dot. intros H. apply N.eqb_eq in H. subst. reflexivity. Qed.

Section ExecEquations.
Variable R : Type.
Variables (s : text) (caps : list text).
Variable k : text -> list text -> option R.

Lemma exec_cls (p : char -> bool) :
  Re.exec (Re.Cls p) s caps k =
    match s with
    | Text c s' => if p c then k s' caps else None
    | EmptyText => None
    end.
Proof. reflexivity. Qed.

Lemma exec_rep (p : char -> bool) (lo : nat) (hi : option nat) :
  Re.exec (Re.Rep p lo hi) s caps k = Re.rep p lo hi s (fun s' => k s' caps).
Proof. reflexivity. Qed.

Lemma exec_cat (r1 r2 : Re.regex) :
  Re.exec (Re.Cat r1 r2) s caps k =
    Re.exec r1 s caps (fun s1 caps1 => Re.exec r2 s1 caps1 k).
Proof. reflexivity. Qed.

Lemma exec_opt (r : Re.regex) :
  Re.exec (Re.Opt r) s caps k =
    match Re.exec r s caps k with
    | Some x => Some x
    | None => k s caps
    end.
Proof. reflexivity. Qed.

Lemma exec_grp (r : Re.regex) :
  Re.exec (Re.Grp r) s caps k =
    Re.exec r s caps (fun s1 caps1 => k s1 (caps1 ++ [Re.consumed s s1])).
Proof. reflexivity. Qed.
End ExecEquations.

Section NumericExec.
Variable R : Type.
Variable caps : list text.
Variable k : text -> list text -> option R.
Hypothesis k_total : forall r, k r caps <> None.






End NumericExec.

End NumericPattern.

(** *** What the scanner reads *)

Section Scanner.
Context {uni : Unicode}.












(** *** [re.search] with the numeric pattern *)





End Scanner.

(** ** Replacement and stripping keep what they do not touch *)

Lemma replace_go_cons (old new : text) (k : nat) (c : char) (s : text) :
  Py.replace_go old new k (Text c s) =
    match k with
    | S k' => Py.replace_go old new k' s
    | O =>
        if Txt.prefix old (Text c s)
        then new ++ Py.replace_go old new (pred (Txt.length old)) s
        else Text c (Py.replace_go old new 0 s)
    end.
Proof. reflexivity. Qed.

Section Preservation.
Variable P : char -> bool.

Lemma all_chars_lstrip_with (q : char -> bool) (s : text) :
  Py.all_chars P s = true -> Py.all_chars P (Py.lstrip_with q s) = true.
Proof.
  induction s as [|c s IH]; simpl; [auto|].
  intros H. destruct (q c); [|exact H].
  apply andb_true_iff in H. now apply IH.
Qed.

Lemma all_chars_rstrip_with (q : char -> bool) (s : text) :
  Py.all_chars P s = true -> Py.all_chars P (Py.rstrip_with q s) = true.
Proof.
  induction s as [|c s IH]; simpl; [auto|].
  intros H. apply andb_true_iff in H. destruct H as [Hc Hs].
  specialize (IH Hs). destruct (Py.rstrip_with q s) as [|d r].
  - destruct (q c); simpl; [reflexivity | now rewrite Hc].
  - simpl in *. now rewrite Hc.
Qed.

Lemma all_chars_strip_with (q : char -> bool) (s : text) :
  Py.all_chars P s = true -> Py.all_chars P (Py.strip_with q s) = true.
Proof.
  intros H. unfold Py.strip_with.
  now apply all_chars_rstrip_with, all_chars_lstrip_with.
Qed.

Lemma all_chars_strip `{uni : Unicode} (s : text) :
  Py.all_chars P s = true -> Py.all_chars P (Py.strip s) = true.
Proof. apply all_chars_strip_with. Qed.

Lemma all_chars_replace_go (old new : text) :
  Py.all_chars P new = true ->
  forall s k, Py.all_chars P s = true ->
              Py.all_chars P (Py.replace_go old new k s) = true.
Proof.
  intros Hn. induction s as [|c s IH]; intros k H; [reflexivity|].
  rewrite replace_go_cons.
  simpl in H. apply andb_true_iff in H. destruct H as [Hc Hs].
  destruct k as [|k]; [|now apply IH].
  destruct (Txt.prefix old (Text c s)).
  - rewrite all_chars_app, Hn. now apply IH.
  - simpl. rewrite Hc. now apply IH.
Qed.

Lemma all_chars_intersperse (new s : text) :
  Py.all_chars P new = true -> Py.all_chars P s = true ->
  Py.all_chars P (Py.intersperse new s) = true.
Proof.
  intros Hn. induction s as [|c s IH]; simpl; [auto|].
  intros H. apply andb_true_iff in H. destruct H as [Hc Hs].
  rewrite all_chars_app, Hn. simpl. rewrite Hc. now apply IH.
Qed.

Lemma all_chars_replace (old new s : text) :
  Py.all_chars P new = true -> Py.all_chars P s = true ->
  Py.all_chars P (Py.replace old new s) = true.
Proof.
  intros Hn Hs. unfold Py.replace. destruct old.
  - now apply all_chars_intersperse.
  - now apply all_chars_replace_go.
Qed.
End Preservation.

Lemma prefix_empty (s : text) : Txt.prefix "" s = true.
Proof. destruct s; reflexivity. Qed.



(** ** The numeric cell parser *)

Section NumericCell.
Context {uni : Unicode} {cap : Capabilities}.







(** C8 as amended.  The input "-3." is mapped to "-3": the pattern needs a
    digit after the decimal point, so the match stops before the point, the
    decimal branch is not entered and the point is not part of the result. *)
Theorem parse_numeric_cell_trailing_point (cell_img : option Image) :
  numeric_text "-3." = "-3."
  /\ (exists m, Re.search NUMERIC_RE "-3." = Some m
                /\ Re.start m = 0%nat /\ Re.text_of m = "-3"
                /\ Py.split_once (ch ".") (Re.text_of m) = None)
  /\ parse_numeric_cell "-3." cell_img = Ok "-3".
Proof.
  split; [reflexivity|]. split; [|reflexivity].
  eexists. split; [reflexivity|]. repeat split; reflexivity.
Qed.

End NumericCell.

(** C8 as stated fails: the result for "-3." is not "-3.". *)
Lemma parse_numeric_cell_trailing_point_dropped :
  @parse_numeric_cell Fixture.unicode Fixture.caps "-3." None <> Ok "-3.".
Proof. discriminate. Qed.

(** ** The matcher and the language of a pattern *)

Section MatcherFacts.
Variable R : Type.

Lemma rep_sound (p : char -> bool) (s : text) :
  forall lo hi (k : text -> option R) x,
    Re.rep p lo hi s k = Some x ->
    exists w rest,
      s = w ++ rest /\ Py.all_chars p w = true
      /\ (lo <= Txt.length w)%nat
      /\ (forall h, hi = Some h -> (Txt.length w <= h)%nat)
      /\ k rest = Some x.
Proof.
  assert (Stop : forall s lo hi (k : text -> option R) x,
             match lo with O => k s | S _ => None end = Some x ->
             exists w rest,
               s = w ++ rest /\ Py.all_chars p w = true
               /\ (lo <= Txt.length w)%nat
               /\ (forall h, hi = Some h -> (Txt.length w <= h)%nat)
               /\ k rest = Some x).
  { intros s0 lo hi k x H. destruct lo; [|discriminate].
    exists "", s0. simpl. repeat split; auto; intros; lia. }
  induction s as [|c s IH]; intros lo hi k x H.
  - apply Stop. simpl in H. destruct hi as [[|h]|]; exact H.
  - simpl in H.
    destruct hi as [[|h]|].
    + now apply Stop.
    + destruct (p c) eqn:E; [|now apply Stop].
      destruct (Re.rep p (pred lo) (option_map pred (Some (S h))) s k) eqn:Er.
      * injection H as ->.
        destruct (IH _ _ _ _ Er) as [w [rest [-> [Hw [Hlo [Hhi Hk]]]]]].
        exists (Text c w), rest. simpl. rewrite E, Hw.
        repeat split; auto; [lia|].
        intros h' Hh'. injection Hh' as <-.
        specialize (Hhi h eq_refl). lia.
      * now apply Stop.
    + destruct (p c) eqn:E; [|now apply Stop].
      destruct (Re.rep p (pred lo) (option_map pred None) s k) eqn:Er.
      * injection H as ->.
        destruct (IH _ _ _ _ Er) as [w [rest [-> [Hw [Hlo [Hhi Hk]]]]]].
        exists (Text c w), rest. simpl. rewrite E, Hw.
        repeat split; auto; [lia|]. intros h' Hh'. discriminate.
      * now apply Stop.
Qed.

Lemma orelse_some (a b : option R) :
  b <> None -> match a with Some x => Some x | None => b end <> None.
Proof. destruct a; [discriminate | auto]. Qed.

Lemma rep_complete (p : char -> bool) (w : text) :
  forall lo hi rest (k : text -> option R),
    Py.all_chars p w = true ->
    (lo <= Txt.length w)%nat ->
    (forall h, hi = Some h -> (Txt.length w <= h)%nat) ->
    k rest <> None ->
    Re.rep p lo hi (w ++ rest) k <> None.
Proof.
  induction w as [|c w IH]; intros lo hi rest k Hw Hlo Hhi Hk.
  - simpl in Hlo. assert (lo = O) by lia. subst lo. simpl Txt.append.
    destruct rest as [|d rest]; simpl.
    + destruct hi as [[|h]|]; exact Hk.
    + destruct hi as [[|h]|]; [exact Hk | |];
        (destruct (p d); [apply orelse_some|]; exact Hk).
  - simpl in Hw. apply andb_true_iff in Hw. destruct Hw as [Hc Hw].
    simpl in Hlo. simpl Txt.append. simpl Re.rep. rewrite Hc.
    destruct hi as [[|h]|].
    + specialize (Hhi O eq_refl). simpl in Hhi. lia.
    + assert (G : Re.rep p (pred lo) (option_map pred (Some (S h))) (w ++ rest) k
                  <> None).
      { apply IH; auto; [lia|]. intros h' Hh'. simpl in Hh'. injection Hh' as <-.
        specialize (Hhi (S h) eq_refl). simpl in Hhi. lia. }
      destruct (Re.rep p (pred lo) (option_map pred (Some (S h))) (w ++ rest) k);
        [discriminate | contradiction].
    + assert (G : Re.rep p (pred lo) (option_map pred None) (w ++ rest) k <> None).
      { apply IH; auto; [lia|]. intros h' Hh'. discriminate. }
      destruct (Re.rep p (pred lo) (option_map pred None) (w ++ rest) k);
        [discriminate | contradiction].
Qed.

(** Whatever the matcher accepts, it accepts by reading a word of the
    language and handing the rest, with the groups read, to its
    continuation. *)
Lemma exec_sound (r : Re.regex) :
  forall s caps (k : text -> list text -> option R) x,
    Re.exec r s caps k = Some x ->
    exists w rest g,
      s = w ++ rest /\ matches r w g /\ k rest (caps ++ g)%list = Some x.
Proof.
  induction r as [p | p lo hi | r1 IH1 r2 IH2 | r IH | r IH]; intros s caps k x H.
  - rewrite exec_cls in H. destruct s as [|c s]; [discriminate|].
    destruct (p c) eqn:E; [|discriminate].
    exists (Text c ""), s, []. rewrite app_nil_r.
    repeat split; auto. now constructor.
  - rewrite exec_rep in H. apply rep_sound in H.
    destruct H as [w [rest [-> [Hw [Hlo [Hhi Hk]]]]]].
    exists w, rest, []. rewrite app_nil_r. repeat split; auto. now constructor.
  - rewrite exec_cat in H. apply IH1 in H.
    destruct H as [w1 [rest1 [g1 [-> [M1 H]]]]]. apply IH2 in H.
    destruct H as [w2 [rest2 [g2 [-> [M2 H]]]]].
    exists (w1 ++ w2), rest2, (g1 ++ g2)%list.
    rewrite append_assoc, app_assoc. repeat split; auto. now constructor.
  - rewrite exec_opt in H. destruct (Re.exec r s caps k) eqn:E.
    + injection H as ->. apply IH in E.
      destruct E as [w [rest [g [-> [M H]]]]].
      exists w, rest, g. repeat split; auto. now constructor.
    + exists "", s, []. rewrite app_nil_r. repeat split; auto. apply M_opt_none.
  - rewrite exec_grp in H. apply IH in H.
    destruct H as [w [rest [g [-> [M H]]]]].
    rewrite consumed_app in H.
    exists w, rest, (g ++ [w])%list. rewrite app_assoc.
    repeat split; auto. now constructor.
Qed.

(** A word of the language is accepted, provided the continuation accepts
    what follows it. *)
Lemma exec_complete (r : Re.regex) (w : text) (g : list text) :
  matches r w g ->
  forall rest caps (k : text -> list text -> option R),
    (forall caps', k rest caps' <> None) ->
    Re.exec r (w ++ rest) caps k <> None.
Proof.
  induction 1 as [p c Hc | p lo hi w Hw Hlo Hhi
                 | r1 r2 w1 w2 g1 g2 M1 IH1 M2 IH2
                 | r w g M IH | r | r w g M IH]; intros rest caps k Hk.
  - rewrite exec_cls. simpl. rewrite Hc. apply Hk.
  - rewrite exec_rep. apply rep_complete; auto.
  - rewrite exec_cat, append_assoc. apply IH1. intros caps'. now apply IH2.
  - rewrite exec_opt. specialize (IH rest caps k Hk).
    destruct (Re.exec r (w ++ rest) caps k); [discriminate | contradiction].
  - rewrite exec_opt. simpl Txt.append.
    destruct (Re.exec r rest caps k); [discriminate | apply Hk].
  - rewrite exec_grp. apply IH. intros caps'. apply Hk.
Qed.
End MatcherFacts.

Lemma match_at_sound (r : Re.regex) (s m : text) (g : list text) :
  Re.match_at r s = Some (m, g) -> exists rest, s = m ++ rest /\ matches r m g.
Proof.
  unfold Re.match_at. intros H. apply exec_sound in H.
  destruct H as [w [rest [g' [-> [M H]]]]].
  rewrite consumed_app in H. simpl in H. injection H as <- <-.
  now exists rest.
Qed.

Lemma match_at_complete (r : Re.regex) (w rest : text) (g : list text) :
  matches r w g -> Re.match_at r (w ++ rest) <> None.
Proof.
  intros M. unfold Re.match_at. apply (exec_complete _ r w g M). discriminate.
Qed.

(** [re.search] returns a word of the language at the leftmost place where
    one starts, and nothing when no part of the text is in the language. *)
Lemma search_from_spec (r : Re.regex) (s : text) :
  forall i,
    match Re.search_from r i s with
    | Some m =>
        exists pre post,
          s = pre ++ Re.text_of m ++ post
          /\ Re.start m = (i + Txt.length pre)%nat
          /\ matches r (Re.text_of m) (Re.groups m)
          /\ (forall pre' w g post',
                 s = pre' ++ w ++ post' -> matches r w g ->
                 (Txt.length pre <= Txt.length pre')%nat)
    | None =>
        forall pre w g post, s = pre ++ w ++ post -> ~ matches r w g
    end.
Proof.
  induction s as [|c s IH]; intros i.
  - simpl. destruct (Re.match_at r "") as [[m g]|] eqn:E.
    + destruct (match_at_sound r "" m g E) as [rest [Hs M]].
      exists "", rest. simpl. repeat split; auto; intros; lia.
    + intros pre w g post Hs M. destruct pre; [|discriminate]. simpl in Hs.
      apply (match_at_complete r w post g M). now rewrite <- Hs.
  - simpl Re.search_from. destruct (Re.match_at r (Text c s)) as [[m g]|] eqn:E.
    + destruct (match_at_sound r _ m g E) as [rest [Hs M]].
      exists "", rest. simpl. repeat split; auto; intros; lia.
    + specialize (IH (S i)). destruct (Re.search_from r (S i) s) as [m|].
      * destruct IH as [pre [post [Hs [Hi [M Hl]]]]].
        exists (Text c pre), post. simpl. repeat split; auto.
        -- now rewrite <- Hs.
        -- lia.
        -- intros pre' w g post' Hs' M'. destruct pre' as [|c' pre'].
           ++ exfalso. simpl in Hs'.
              apply (match_at_complete r w post' g M'). now rewrite <- Hs'.
           ++ simpl in Hs'. injection Hs' as _ Hs'. simpl.
              specialize (Hl pre' w g post' Hs' M'). lia.
      * intros pre w g post Hs M. destruct pre as [|c' pre].
        -- simpl in Hs. apply (match_at_complete r w post g M). now rewrite <- Hs.
        -- simpl in Hs. injection Hs as _ Hs. now apply (IH pre w g post).
Qed.
(** ** Character classes *)

Lemma bind_ok {A B} (a : A) (k : A -> result B) : bind (Ok a) k = k a.
Proof. reflexivity. Qed.

(** Comparisons of code points, case by case. *)
Ltac n_cases :=
  repeat match goal with
         | |- context [(?a <=? ?b)%N] => destruct (N.leb_spec a b)
         | |- context [(?a <? ?b)%N] => destruct (N.ltb_spec a b)
         | |- context [(?a =? ?b)%N] => destruct (N.eqb_spec a b)
         | H : context [(?a <=? ?b)%N] |- _ => destruct (N.leb_spec a b)
         | H : context [(?a <? ?b)%N] |- _ => destruct (N.ltb_spec a b)
         | H : context [(?a =? ?b)%N] |- _ => destruct (N.eqb_spec a b)
         end;
  simpl in *; try discriminate; try reflexivity; try lia.

Section ClassFacts.
Context {uni : Unicode}.

(** Beyond ASCII the classes are those of the database. *)
Lemma wide_classes (c : char) :
  (128 <= c)%N ->
  Py.is_space c = wide_space c
  /\ Py.decimal c = wide_decimal c
  /\ Py.is_digit c = wide_digit c.
Proof.
  intros H. unfold Py.is_space, Py.decimal, Py.is_digit.
  destruct (N.ltb_spec c 128); [lia|]. auto.
Qed.

(** On ASCII the digits are the decimal digits 0-9. *)
Lemma ascii_digit (c : char) :
  (c < 128)%N -> Py.is_digit c = Py.is_decimal c.
Proof.
  intros H. unfold Py.is_digit, Py.is_decimal, Py.decimal.
  destruct (N.ltb_spec c 128); [|lia].
  now destruct ((48 <=? c) && (c <=? 57))%N.
Qed.

Lemma decimal_digit (c : char) : Py.is_decimal c = true -> Py.is_digit c = true.
Proof.
  destruct (N.lt_ge_cases c 128) as [L|L].
  - now rewrite (ascii_digit c L).
  - destruct (wide_classes c L) as [_ [D G]].
    unfold Py.is_decimal. rewrite D, G.
    destruct (wide_decimal c) as [v|] eqn:E; [|discriminate].
    intros _. exact (decimal_is_digit c v E).
Qed.

Lemma digit_not_space (c : char) : Py.is_digit c = true -> Py.is_space c = false.
Proof.
  destruct (N.lt_ge_cases c 128) as [L|L].
  - unfold Py.is_digit, Py.is_space. intros H. n_cases.
  - destruct (wide_classes c L) as [S [_ G]]. rewrite S, G.
    apply digit_is_no_space.
Qed.

Lemma space_not_decimal (c : char) : Py.is_space c = true -> Py.not_decimal c = true.
Proof.
  intros H. unfold Py.not_decimal. apply negb_true_iff.
  destruct (Py.is_decimal c) eqn:D; [|reflexivity].
  apply decimal_digit, digit_not_space in D. congruence.
Qed.

(** [int] does not take a digit for white space, a sign or an underscore. *)
Lemma digit_not_int_space (c : char) :
  Py.is_digit c = true -> Py.int_space c = false.
Proof.
  intros H. unfold Py.int_space. destruct (N.ltb_spec c 127) as [L|L].
  - unfold Py.is_digit in H. n_cases.
  - now apply digit_not_space.
Qed.

Lemma digit_not_mark (c : char) :
  Py.is_digit c = true ->
  (c =? ch "+")%N = false /\ (c =? ch "-")%N = false /\ (c =? ch "_")%N = false.
Proof.
  intros H.
  repeat split; apply N.eqb_neq; intros ->; vm_compute in H; discriminate.
Qed.

Lemma decimal_value_of (c : char) (d : Z) :
  Py.decimal c = Some d -> Py.decimal_value c = d.
Proof. intros H. unfold Py.decimal_value. now rewrite H. Qed.

(** A decimal digit is worth 0 to 9. *)
Lemma decimal_range (c : char) (d : Z) : Py.decimal c = Some d -> 0 <= d <= 9.
Proof.
  unfold Py.decimal. destruct (N.ltb_spec c 128) as [L|L].
  - destruct ((48 <=? c) && (c <=? 57))%N eqn:E; [|discriminate].
    intros H. injection H as <-. apply andb_true_iff in E. destruct E as [A B].
    apply N.leb_le in A, B. lia.
  - apply decimal_below_ten.
Qed.

End ClassFacts.

(** ** Stripping and filtering *)

Lemma lstrip_with_solid (p : char -> bool) (s : text) :
  Py.all_chars (fun c => negb (p c)) s = true -> Py.lstrip_with p s = s.
Proof.
  destruct s as [|c s]; simpl; [reflexivity|].
  intros H. apply andb_true_iff in H. destruct H as [Hc _].
  apply negb_true_iff in Hc. now rewrite Hc.
Qed.

Lemma rstrip_with_solid (p : char -> bool) (s : text) :
  Py.all_chars (fun c => negb (p c)) s = true -> Py.rstrip_with p s = s.
Proof.
  induction s as [|c s IH]; simpl; [reflexivity|].
  intros H. apply andb_true_iff in H. destruct H as [Hc Hs].
  apply negb_true_iff in Hc. rewrite (IH Hs), Hc. now destruct s.
Qed.

(** A text without characters of the class is its own strip. *)
Lemma strip_with_solid (p : char -> bool) (s : text) :
  Py.all_chars (fun c => negb (p c)) s = true -> Py.strip_with p s = s.
Proof.
  intros H. unfold Py.strip_with. rewrite (lstrip_with_solid p s H).
  now apply rstrip_with_solid.
Qed.

Lemma all_chars_impl (P Q : char -> bool) (s : text) :
  (forall c, P c = true -> Q c = true) ->
  Py.all_chars P s = true -> Py.all_chars Q s = true.
Proof.
  intros H. induction s as [|c s IH]; simpl; [auto|].
  intros A. apply andb_true_iff in A. destruct A as [Hc Hs].
  now rewrite (H c Hc), (IH Hs).
Qed.

Lemma all_chars_both (P Q : char -> bool) (s : text) :
  Py.all_chars P s = true -> Py.all_chars Q s = true ->
  Py.all_chars (fun c => P c && Q c) s = true.
Proof.
  induction s as [|c s IH]; simpl; [auto|]. intros A B.
  apply andb_true_iff in A. apply andb_true_iff in B.
  destruct A as [A1 A2]. destruct B as [B1 B2]. now rewrite A1, B1, IH.
Qed.

Lemma filter_chars_all (p : char -> bool) (s : text) :
  Py.all_chars p (Py.filter_chars p s) = true.
Proof.
  induction s as [|c s IH]; simpl; [reflexivity|].
  destruct (p c) eqn:E; [simpl; now rewrite E | exact IH].
Qed.

Lemma filter_sub {A} (P Q : A -> bool) (l : list A) :
  (forall x, Q x = true -> P x = true) -> filter Q (filter P l) = filter Q l.
Proof.
  intros H. induction l as [|a l IH]; simpl; [reflexivity|].
  destruct (P a) eqn:Pa; simpl.
  - now rewrite IH.
  - destruct (Q a) eqn:Qa; [|exact IH]. apply H in Qa. congruence.
Qed.

(** ** The conversion [int] *)

Section IntFacts.
Context {uni : Unicode}.

Lemma int_body_decimal (s : text) :
  Py.all_chars Py.is_decimal s = true ->
  forall acc b,
    Py.int_body acc b s
    = match s with
      | EmptyText => if b then Some acc else None
      | _ => Some (Py.digits_value acc s)
      end.
Proof.
  induction s as [|c s IH]; intros H acc b; [reflexivity|].
  simpl in H. apply andb_true_iff in H. destruct H as [Hc Hs].
  simpl. unfold Py.is_decimal in Hc.
  destruct (Py.decimal c) as [d|] eqn:E; [|discriminate].
  rewrite (IH Hs), (decimal_value_of c d E). now destruct s.
Qed.

(** On a run of decimal digits [int] returns its value. *)
Lemma int_isdecimal (s : text) : Py.isdecimal s = true -> Py.int s = Ok (value s).
Proof.
  intros H. pose proof (isdecimal_all s H) as A.
  destruct s as [|c s]; [discriminate|]. unfold Py.int.
  rewrite strip_with_solid.
  - simpl in A. apply andb_true_iff in A. destruct A as [Hc Hs].
    destruct (digit_not_mark c (decimal_digit c Hc)) as [P [M _]].
    rewrite P, M. rewrite int_body_decimal by (simpl; now rewrite Hc, Hs).
    reflexivity.
  - apply (all_chars_impl Py.is_decimal); [|exact A].
    intros d Hd. apply negb_true_iff. now apply digit_not_int_space, decimal_digit.
Qed.

Lemma int_body_chars (s : text) :
  forall acc b v,
    Py.int_body acc b s = Some v ->
    Py.all_chars (fun c => Py.is_decimal c || (c =? ch "_")%N) s = true.
Proof.
  induction s as [|c s IH]; intros acc b v H; [reflexivity|].
  simpl in H. simpl. unfold Py.is_decimal at 1.
  destruct (Py.decimal c) as [d|].
  - simpl. exact (IH _ _ _ H).
  - change (ch "_") with 95%N in *.
    destruct (c =? 95)%N; simpl in H |- *; [|discriminate].
    destruct b; [|discriminate]. exact (IH _ _ _ H).
Qed.

(** What [str.isdigit] accepts and [int] reads is a run of decimal digits. *)
Lemma int_isdigit_inv (p : text) (v : Z) :
  Py.isdigit p = true -> Py.int p = Ok v -> Py.isdecimal p = true.
Proof.
  intros D I. destruct p as [|c p]; [discriminate|].
  unfold Py.isdigit in D. unfold Py.int in I.
  assert (K : forall d,
             Py.is_digit d && (Py.is_decimal d || (d =? ch "_")%N) = true ->
             Py.is_decimal d = true).
  { intros d H. apply andb_true_iff in H. destruct H as [Hd H].
    destruct (Py.is_decimal d); [reflexivity|].
    destruct (digit_not_mark d Hd) as [_ [_ U]]. rewrite U in H. discriminate. }
  rewrite strip_with_solid in I.
  - pose proof D as D'. simpl in D'. apply andb_true_iff in D'.
    destruct D' as [Dc _]. destruct (digit_not_mark c Dc) as [P [M _]].
    rewrite P, M in I.
    destruct (Py.int_body 0 false (Text c p)) as [w|] eqn:B; [|discriminate].
    apply int_body_chars in B.
    pose proof (all_chars_both _ _ _ D B) as C.
    unfold Py.isdecimal. exact (all_chars_impl _ _ _ K C).
  - apply (all_chars_impl Py.is_digit); [|exact D].
    intros d Hd. apply negb_true_iff. now apply digit_not_int_space.
Qed.

(** [int] raises nothing but [ValueError]. *)
Lemma int_raises (s : text) (e : exn) : Py.int s = Raise e -> e = ValueError.
Proof.
  unfold Py.int.
  destruct (match Py.strip_with Py.int_space s with
            | Text c b =>
                if (c =? ch "+")%N then (false, b)
                else if (c =? ch "-")%N then (true, b)
                else (false, Py.strip_with Py.int_space s)
            | EmptyText => (false, Py.strip_with Py.int_space s)
            end) as [negative body].
  destruct (Py.int_body 0 false body); [discriminate|].
  intros H. now injection H as <-.
Qed.

End IntFacts.

(** ** The date parser *)

Section DateFacts.
Context {uni : Unicode}.

Lemma all_decimal_nonempty_isdecimal (s : text) :
  Py.all_chars Py.is_decimal s = true -> (1 <= Txt.length s)%nat ->
  Py.isdecimal s = true.
Proof. destruct s; simpl; intros H L; [lia | exact H]. Qed.

(** The language of [MONTH_DAY_RE]. *)
Lemma matches_month_day (w : text) (g : list text) :
  matches MONTH_DAY_RE w g <->
  exists g1 sep g2,
    w = g1 ++ sep ++ g2 /\ g = [g1; g2] /\ month_day_shape g1 sep g2.
Proof.
  unfold MONTH_DAY_RE. split.
  - intros M.
    inversion M as [| | r1 r2 w1 w23 ga gbc M1 M23 | | |]; subst; clear M.
    inversion M1 as [| | | | | r w' g' Ma]; subst; clear M1.
    inversion Ma as [|p lo hi w' Hw1 Hlo1 Hhi1| | | |]; subst; clear Ma.
    inversion M23 as [| | r1 r2 w2 w3 gb gc M2 M3 | | |]; subst; clear M23.
    inversion M2 as [|p lo hi w' Hw2 Hlo2 Hhi2| | | |]; subst; clear M2.
    inversion M3 as [| | | | | r w' g' Mc]; subst; clear M3.
    inversion Mc as [|p lo hi w' Hw3 Hlo3 Hhi3| | | |]; subst; clear Mc.
    exists w1, w2, w3. split; [reflexivity|]. split; [reflexivity|].
    unfold month_day_shape. repeat split.
    + now apply all_decimal_nonempty_isdecimal.
    + now apply Hhi1.
    + now apply all_decimal_nonempty_isdecimal.
    + now apply Hhi3.
    + intros ->. simpl in Hlo2. lia.
    + exact Hw2.
  - intros [g1 [sep [g2 [-> [-> [H1 [L1 [H2 [L2 [Hs Hn]]]]]]]]]].
    change [g1; g2] with (([] ++ [g1]) ++ ([] ++ ([] ++ [g2])))%list.
    apply M_cat; [|apply M_cat].
    + apply M_grp. apply M_rep.
      * now apply isdecimal_all.
      * destruct g1; [discriminate | simpl; lia].
      * intros h E. now injection E as <-.
    + apply M_rep.
      * exact Hn.
      * destruct sep; [contradiction | simpl; lia].
      * discriminate.
    + apply M_grp. apply M_rep.
      * now apply isdecimal_all.
      * destruct g2; [discriminate | simpl; lia].
      * intros h E. now injection E as <-.
Qed.

Lemma month_names_get (m : Z) :
  (1 <= m <= 12)%Z -> dict_get MONTH_NAMES m = Ok (month_name m).
Proof.
  intros H.
  assert (C : (m = 1 \/ m = 2 \/ m = 3 \/ m = 4 \/ m = 5 \/ m = 6 \/ m = 7
               \/ m = 8 \/ m = 9 \/ m = 10 \/ m = 11 \/ m = 12)%Z) by lia.
  repeat (destruct C as [-> | C]; [reflexivity|]). subst m. reflexivity.
Qed.

(** What [re.search] with [MONTH_DAY_RE] means for strategy (a). *)
Lemma strategy_a_spec (cand : text) :
  match strategy_a cand with
  | Some (m, d) =>
      exists pre g1 sep g2 post,
        cand = pre ++ (g1 ++ sep ++ g2) ++ post
        /\ month_day_shape g1 sep g2
        /\ m = value g1 /\ d = value g2
        /\ Re.search MONTH_DAY_RE cand
           = Some {| Re.start := Txt.length pre;
                     Re.text_of := g1 ++ sep ++ g2;
                     Re.groups := [g1; g2] |}
        /\ (forall pre' h1 sep' h2 post',
               cand = pre' ++ (h1 ++ sep' ++ h2) ++ post' ->
               month_day_shape h1 sep' h2 ->
               (Txt.length pre <= Txt.length pre')%nat)
  | None =>
      Re.search MONTH_DAY_RE cand = None
      /\ forall pre g1 sep g2 post,
          cand = pre ++ (g1 ++ sep ++ g2) ++ post -> ~ month_day_shape g1 sep g2
  end.
Proof.
  unfold strategy_a, Re.search.
  pose proof (search_from_spec MONTH_DAY_RE cand 0) as P.
  destruct (Re.search_from MONTH_DAY_RE 0 cand) as [[st tx gs]|].
  - destruct P as [pre [post [Hs [Hi [M Hl]]]]]. simpl in *.
    apply matches_month_day in M.
    destruct M as [g1 [sep [g2 [-> [-> Sh]]]]]. subst st.
    exists pre, g1, sep, g2, post.
    split; [exact Hs|]. split; [exact Sh|].
    split; [reflexivity|]. split; [reflexivity|]. split; [reflexivity|].
    intros pre' h1 sep' h2 post' Hc Sh'.
    apply (Hl pre' (h1 ++ sep' ++ h2) [h1; h2] post' Hc).
    apply matches_month_day. now exists h1, sep', h2.
  - split; [reflexivity|].
    intros pre g1 sep g2 post Hc Sh.
    apply (P pre (g1 ++ sep ++ g2) [g1; g2] post Hc).
    apply matches_month_day. now exists g1, sep, g2.
Qed.

Lemma date_candidate_blank (raw : text) :
  Py.strip raw = "" -> date_candidate raw = "".
Proof. intros H. unfold date_candidate. now rewrite H. Qed.

(** The third strategy as the source runs it. *)
Lemma strategy_c_run (cand : text) :
  (let digits := Re.sub_nondigits cand in
   let n := Txt.length digits in
   if (Nat.eqb n 2 || Nat.eqb n 3 || Nat.eqb n 4)%bool then
     d0 <- Py.index digits 0 ;; mm <- Py.int d0 ;;
     dd <- (if Nat.leb 3 n then Py.int (Py.drop 1 digits)
            else d1 <- Py.index digits 1 ;; Py.int d1) ;;
     Ok (cand, Some (mm, dd))
   else Ok (cand, None)) = Ok (cand, strategy_c cand).
Proof.
  unfold strategy_c, Re.sub_nondigits.
  pose proof (filter_chars_all Py.is_decimal cand) as H.
  destruct (Py.filter_chars Py.is_decimal cand) as [|d0 rest]; [reflexivity|].
  simpl in H. apply andb_true_iff in H. destruct H as [H0 H].
  assert (I0 : Py.int (Text d0 "") = Ok (value (Text d0 ""))).
  { apply int_isdecimal. simpl. now rewrite H0. }
  assert (IR : rest <> "" -> Py.int rest = Ok (value rest)).
  { intros N. apply int_isdecimal. destruct rest; [contradiction | exact H]. }
  destruct rest as [|d1 [|d2 [|d3 [|d4 rest]]]]; cbv zeta;
    simpl Txt.length; simpl orb; cbv iota; try reflexivity;
    unfold Py.index; simpl Txt.get; simpl Nat.leb; simpl Py.drop;
    cbv iota; rewrite ?bind_ok.
  all: rewrite I0, bind_ok; cbv beta; rewrite ?bind_ok;
    rewrite IR by discriminate; reflexivity.
Qed.

(** The parser runs the strategies of [month_day] on the candidate. *)
Lemma parse_month_day_spec (text_ : text) :
  _parse_month_day_from_any_separators text_ =
    (md <- month_day (date_candidate text_) ;;
     Ok (match Py.strip text_ with "" => "" | _ => date_candidate text_ end, md)).
Proof.
  unfold _parse_month_day_from_any_separators.
  destruct (Py.strip text_) as [|c0 s0] eqn:Es.
  - simpl. now rewrite (date_candidate_blank text_ Es).
  - simpl negb. cbv iota.
    assert (Ec : Py.replace "|" "/" (Py.replace "\" "/"
                   (Py.replace "l" "1" (Py.replace "I" "1" (Text c0 s0))))
                 = date_candidate text_).
    { unfold date_candidate. now rewrite Es. }
    rewrite Ec. set (cand := date_candidate text_).
    unfold month_day. pose proof (strategy_a_spec cand) as A.
    destruct (strategy_a cand) as [[m d]|].
    + destruct A as [pre [g1 [sep [g2 [post [_ [Sh [-> [-> [S _]]]]]]]]]].
      rewrite S. unfold Re.group. simpl.
      destruct Sh as [H1 [_ [H2 _]]].
      now rewrite (int_isdecimal g1 H1), (int_isdecimal g2 H2).
    + destruct A as [S _]. rewrite S.
      unfold strategy_b, numeric_tokens.
      destruct (filter Py.isdigit (Re.split_ws cand)) as [|p0 [|p1 ps]] eqn:Ef.
      * exact (strategy_c_run cand).
      * exact (strategy_c_run cand).
      * destruct (Py.int p0) as [mm|e]; [|reflexivity]. rewrite !bind_ok.
        destruct (Py.int p1) as [dd|e]; reflexivity.
Qed.

(** "<MonthName> <day>" for a valid month and day; nothing when the month or
    the day is out of range or no strategy applies. *)
Lemma date_of_raw_spec (raw : text) :
  date_of_raw raw
  = (md <- month_day (date_candidate raw) ;; Ok (date_text md, raw)).
Proof.
  unfold date_of_raw. rewrite parse_month_day_spec.
  destruct (month_day (date_candidate raw)) as [md|e]; [|reflexivity].
  rewrite !bind_ok. cbv beta iota zeta.
  destruct md as [[m d]|]; [|reflexivity].
  unfold date_text.
  destruct ((1 <=? m) && (m <=? 12) && (1 <=? d) && (d <=? 31))%Z eqn:V;
    [|reflexivity].
  change (negb true) with false. cbv iota.
  rewrite month_names_get; [reflexivity|].
  apply andb_true_iff in V. destruct V as [V _].
  apply andb_true_iff in V. destruct V as [V _].
  apply andb_true_iff in V. destruct V as [V1 V2].
  apply Z.leb_le in V1, V2. lia.
Qed.

(** *** The white-space split *)

Lemma any_char_app (p : char -> bool) (a b : text) :
  any_char p (a ++ b) = any_char p a || any_char p b.
Proof. induction a as [|c a IH]; simpl; [reflexivity|]. now rewrite IH, orb_assoc. Qed.

Lemma isdecimal_any (s : text) :
  Py.isdecimal s = true -> any_char Py.is_decimal s = true.
Proof.
  intros H. destruct (isdecimal_cons s H) as [c [s' [-> [Hc _]]]]. simpl. now rewrite Hc.
Qed.

(** Up to the first decimal digit of a text that holds one. *)
Lemma first_decimal (b : text) :
  any_char Py.is_decimal b = true ->
  exists sep d r,
    b = sep ++ Text d r /\ Py.all_chars Py.not_decimal sep = true
    /\ Py.is_decimal d = true.
Proof.
  induction b as [|c b IH]; simpl; [discriminate|]. intros H.
  destruct (Py.is_decimal c) eqn:E.
  - exists "", c, b. now repeat split.
  - destruct (IH H) as [sep [d [r [-> [Hs Hd]]]]]. exists (Text c sep), d, r.
    split; [reflexivity|]. split; [|exact Hd]. simpl. unfold Py.not_decimal at 1.
    now rewrite E.
Qed.

(** A gap holds a match of the month-day pattern. *)
Lemma gap_shape (x : text) :
  has_gap x ->
  exists pre g1 sep g2 post,
    x = pre ++ (g1 ++ sep ++ g2) ++ post /\ month_day_shape g1 sep g2.
Proof.
  intros [a [d [w [b [-> [Hd [Hw Hb]]]]]]].
  destruct (first_decimal b Hb) as [sep [d' [r [-> [Hs Hd']]]]].
  exists a, (Text d ""), (Text w sep), (Text d' ""), r. split.
  - simpl. now rewrite append_assoc.
  - unfold month_day_shape, Py.isdecimal. simpl. rewrite Hd, Hd', Hw, Hs.
    repeat split; auto; discriminate.
Qed.

Lemma has_gap_app (t s : text) : has_gap s -> has_gap (t ++ s).
Proof.
  intros [a [d [w [b [-> H]]]]]. exists (t ++ a), d, w, b.
  split; [now rewrite append_assoc | exact H].
Qed.

Lemma isdecimal_last (s : text) :
  Py.isdecimal s = true -> exists t d, s = t ++ Text d "" /\ Py.is_decimal d = true.
Proof.
  intros H. apply isdecimal_all in H as A. destruct s as [|c s]; [discriminate|].
  clear H. revert c A. induction s as [|c' s IH]; intros c A.
  - exists "", c. split; [reflexivity|]. simpl in A. now apply andb_true_iff in A.
  - simpl in A. apply andb_true_iff in A. destruct A as [_ A].
    destruct (IH c' A) as [t [d [E Hd]]]. exists (Text c t), d.
    split; [simpl; now rewrite E | exact Hd].
Qed.

(** A piece of the split made of decimal digits comes with a decimal digit
    of the text. *)
Lemma token_decimal (s : text) :
  forall tok in_run p,
    In p (Re.split_ws_go tok in_run s) -> Py.isdecimal p = true ->
    any_char Py.is_decimal (tok ++ s) = true.
Proof.
  induction s as [|c s IH]; intros tok in_run p I D; simpl in I.
  - destruct I as [<- | []]. rewrite append_nil_r. now apply isdecimal_any.
  - rewrite any_char_app. simpl.
    destruct (Py.is_space c) eqn:Sp.
    + assert (T : In p (Re.split_ws_go "" true s) ->
                  any_char Py.is_decimal tok
                  || (Py.is_decimal c || any_char Py.is_decimal s) = true).
      { intros I'. pose proof (IH "" true p I' D) as H. simpl in H.
        now rewrite H, !orb_true_r. }
      destruct in_run; [now apply T|]. destruct I as [<- | I]; [|now apply T].
      now rewrite (isdecimal_any tok D).
    + pose proof (IH _ _ p I D) as H.
      rewrite append_assoc, any_char_app in H. exact H.
Qed.

(** Two pieces of the split made of decimal digits leave a gap in the text. *)
Lemma two_tokens_gap (s : text) :
  forall tok in_run p0 p1 rest,
    filter Py.isdecimal (Re.split_ws_go tok in_run s) = p0 :: p1 :: rest ->
    has_gap (tok ++ s).
Proof.
  induction s as [|c s IH]; intros tok in_run p0 p1 rest F; simpl in F.
  - destruct (Py.isdecimal tok); discriminate.
  - destruct (Py.is_space c) eqn:Sp.
    + assert (T : forall q0 q1 r,
                 filter Py.isdecimal (Re.split_ws_go "" true s) = q0 :: q1 :: r ->
                 has_gap (tok ++ Text c s)).
      { intros q0 q1 r F'. apply has_gap_app.
        apply (has_gap_app (Text c "") s). exact (IH "" true q0 q1 r F'). }
      destruct in_run; [exact (T _ _ _ F)|]. simpl in F.
      destruct (Py.isdecimal tok) eqn:D; [|exact (T _ _ _ F)].
      injection F as _ F.
      assert (I : In p1 (filter Py.isdecimal (Re.split_ws_go "" true s)))
        by (rewrite F; now left).
      apply filter_In in I. destruct I as [I D1].
      pose proof (token_decimal s "" true p1 I D1) as H. simpl in H.
      destruct (isdecimal_last tok D) as [t [d [-> Hd]]].
      exists t, d, c, s. split; [now rewrite append_assoc|].
      split; [exact Hd|]. split; [now apply space_not_decimal | exact H].
    + pose proof (IH _ _ p0 p1 rest F) as H. now rewrite append_assoc in H.
Qed.

Lemma isdecimal_isdigit (p : text) : Py.isdecimal p = true -> Py.isdigit p = true.
Proof.
  destruct p as [|c p]; [discriminate|]. unfold Py.isdecimal, Py.isdigit.
  apply all_chars_impl. exact decimal_digit.
Qed.

(** Where the pattern of strategy (a) is not found, the pieces of the split
    do not hold two runs of decimal digits. *)
Lemma tokens_without_match (cand p0 p1 : text) (rest : list text) :
  strategy_a cand = None ->
  numeric_tokens cand = p0 :: p1 :: rest ->
  Py.isdecimal p0 = false \/ Py.isdecimal p1 = false.
Proof.
  intros A F.
  destruct (Py.isdecimal p0) eqn:D0; [|now left].
  destruct (Py.isdecimal p1) eqn:D1; [|now right]. exfalso.
  unfold numeric_tokens in F.
  assert (G : filter Py.isdecimal (Re.split_ws cand)
              = p0 :: p1 :: filter Py.isdecimal rest).
  { rewrite <- (filter_sub Py.isdigit Py.isdecimal) by exact isdecimal_isdigit.
    rewrite F. simpl. now rewrite D0, D1. }
  pose proof (two_tokens_gap cand "" false _ _ _ G) as Gap.
  destruct (gap_shape _ Gap) as [pre [g1 [sep [g2 [post [E Sh]]]]]].
  pose proof (strategy_a_spec cand) as P. rewrite A in P.
  exact (proj2 P pre g1 sep g2 post E Sh).
Qed.

(** Strategy (b), when it is reached with two pieces, ends in a
    [ValueError]: one of the two holds a digit that [int] does not read. *)
Lemma strategy_b_raises (cand p0 p1 : text) (rest : list text) :
  strategy_a cand = None ->
  numeric_tokens cand = p0 :: p1 :: rest ->
  (mm <- Py.int p0 ;; dd <- Py.int p1 ;; Ok (mm, dd)) = Raise ValueError.
Proof.
  intros A F.
  assert (I0 : In p0 (numeric_tokens cand)) by (rewrite F; now left).
  assert (I1 : In p1 (numeric_tokens cand)) by (rewrite F; right; now left).
  apply filter_In in I0, I1. destruct I0 as [_ G0]. destruct I1 as [_ G1].
  destruct (Py.int p0) as [mm|e0] eqn:E0;
    [|now rewrite (int_raises p0 e0 E0)].
  destruct (Py.int p1) as [dd|e1] eqn:E1;
    [|now rewrite (int_raises p1 e1 E1)].
  exfalso. pose proof (int_isdigit_inv p0 mm G0 E0) as D0.
  pose proof (int_isdigit_inv p1 dd G1 E1) as D1.
  destruct (tokens_without_match cand p0 p1 rest A F); congruence.
Qed.

(** The outcome of the three strategies. *)
Lemma month_day_outcome (cand : text) :
  month_day cand
  = match strategy_a cand with
    | Some md => Ok (Some md)
    | None =>
        match numeric_tokens cand with
        | _ :: _ :: _ => Raise ValueError
        | _ => Ok (strategy_c cand)
        end
    end.
Proof.
  unfold month_day. destruct (strategy_a cand) as [md|] eqn:A; [reflexivity|].
  unfold strategy_b.
  destruct (numeric_tokens cand) as [|p0 [|p1 rest]] eqn:F; try reflexivity.
  now rewrite (strategy_b_raises cand p0 p1 rest A F).
Qed.

(** *** Texts with plain digits *)

Lemma plain_isdigit (p : text) :
  plain_digits p = true -> Py.isdigit p = true -> Py.isdecimal p = true.
Proof.
  destruct p as [|c p]; [discriminate|]. unfold plain_digits, Py.isdigit, Py.isdecimal.
  intros P D. pose proof (all_chars_both _ _ _ P D) as B.
  assert (K : forall d,
             implb (Py.is_digit d) (Py.is_decimal d) && Py.is_digit d = true ->
             Py.is_decimal d = true).
  { intros d H. apply andb_true_iff in H. destruct H as [I G].
    now rewrite G in I. }
  exact (all_chars_impl _ _ _ K B).
Qed.

Lemma split_ws_chars (P : char -> bool) (s : text) :
  forall tok in_run,
    Py.all_chars P tok = true -> Py.all_chars P s = true ->
    Forall (fun t => Py.all_chars P t = true) (Re.split_ws_go tok in_run s).
Proof.
  induction s as [|c s IH]; intros tok in_run Ht Hs; simpl.
  - now constructor.
  - simpl in Hs. apply andb_true_iff in Hs. destruct Hs as [Hc Hs].
    destruct (Py.is_space c).
    + destruct in_run; [now apply IH|]. constructor; [exact Ht | now apply IH].
    + apply IH; [|exact Hs]. rewrite all_chars_app, Ht. simpl. now rewrite Hc.
Qed.

Lemma plain_candidate (raw : text) :
  plain_digits raw = true -> plain_digits (date_candidate raw) = true.
Proof.
  unfold plain_digits, date_candidate. intros H.
  repeat (apply all_chars_replace; [reflexivity|]).
  now apply all_chars_strip.
Qed.

(** With plain digits the second strategy is never reached with two
    pieces. *)
Lemma plain_tokens (cand : text) :
  plain_digits cand = true -> strategy_a cand = None ->
  (List.length (numeric_tokens cand) <= 1)%nat.
Proof.
  intros P A. destruct (numeric_tokens cand) as [|p0 [|p1 rest]] eqn:F;
    [simpl; lia | simpl; lia |]. exfalso.
  assert (I0 : In p0 (numeric_tokens cand)) by (rewrite F; now left).
  assert (I1 : In p1 (numeric_tokens cand)) by (rewrite F; right; now left).
  unfold numeric_tokens in I0, I1. apply filter_In in I0, I1.
  destruct I0 as [I0 G0]. destruct I1 as [I1 G1].
  pose proof (split_ws_chars _ cand "" false eq_refl P) as T.
  rewrite Forall_forall in T.
  pose proof (plain_isdigit p0 (T p0 I0) G0).
  pose proof (plain_isdigit p1 (T p1 I1) G1).
  destruct (tokens_without_match cand p0 p1 rest A F); congruence.
Qed.

(** A text with plain digits is parsed without an exception. *)
Lemma date_of_raw_plain (raw : text) :
  plain_digits raw = true ->
  date_of_raw raw
  = Ok (date_text (or_else (strategy_a (date_candidate raw))
                     (strategy_c (date_candidate raw))), raw).
Proof.
  intros P. rewrite date_of_raw_spec, month_day_outcome.
  destruct (strategy_a (date_candidate raw)) as [md|] eqn:A; [reflexivity|].
  pose proof (plain_tokens _ (plain_candidate raw P) A) as L.
  destruct (numeric_tokens (date_candidate raw)) as [|p0 [|p1 rest]];
    [reflexivity | reflexivity | simpl in L; lia].
Qed.

(** The date parser raises nothing but [ValueError], and only on a text
    that holds a digit which is not a decimal digit. *)
Lemma date_of_raw_raises (raw : text) (e : exn) :
  date_of_raw raw = Raise e -> e = ValueError /\ plain_digits raw = false.
Proof.
  intros H. split.
  - rewrite date_of_raw_spec, month_day_outcome in H.
    destruct (strategy_a (date_candidate raw)) as [md|]; [discriminate|].
    destruct (numeric_tokens (date_candidate raw)) as [|p0 [|p1 rest]];
      try discriminate.
    now injection H as <-.
  - destruct (plain_digits raw) eqn:P; [|reflexivity].
    rewrite (date_of_raw_plain raw P) in H. discriminate.
Qed.

End DateFacts.

(** ** Geometry *)

Local Open Scope Z_scope.

Lemma py_int_floor (q : Q) : (0 <= q)%Q -> py_int q = Qfloor q.
Proof.
  intros H. unfold py_int. apply Qle_bool_iff in H. now rewrite H.
Qed.

Lemma py_int_nonneg (q : Q) : (0 <= q)%Q -> 0 <= py_int q.
Proof.
  intros H. rewrite (py_int_floor q H).
  change 0 with (Qfloor 0). now apply Qfloor_resp_le.
Qed.

Lemma py_int_mono (p q : Q) : (0 <= p)%Q -> (p <= q)%Q -> py_int p <= py_int q.
Proof.
  intros Hp Hpq. rewrite (py_int_floor p Hp).
  rewrite (py_int_floor q (Qle_trans _ _ _ Hp Hpq)).
  now apply Qfloor_resp_le.
Qed.

Lemma inject_Z_nonneg (n : Z) : 0 <= n -> (0 <= inject_Z n)%Q.
Proof. intros H. change 0%Q with (inject_Z 0). now rewrite <- Zle_Qle. Qed.

(** A fraction of a length, truncated: between 0 and the length, and
    monotone in the fraction. *)
Lemma scale_bounds (l r : Q) (W : Z) :
  (0 <= l)%Q -> (l <= r)%Q -> (r <= 1)%Q -> 0 <= W ->
  0 <= py_int (l * inject_Z W)
  /\ py_int (l * inject_Z W) <= py_int (r * inject_Z W)
  /\ py_int (r * inject_Z W) <= W.
Proof.
  intros Hl Hlr Hr HW.
  pose proof (inject_Z_nonneg W HW) as HQ.
  assert (H0 : (0 <= l * inject_Z W)%Q) by now apply Qmult_le_0_compat.
  assert (H1 : (l * inject_Z W <= r * inject_Z W)%Q)
    by now apply Qmult_le_compat_r.
  assert (H2 : (r * inject_Z W <= inject_Z W)%Q).
  { rewrite <- (Qmult_1_l (inject_Z W)) at 2. now apply Qmult_le_compat_r. }
  repeat split.
  - now apply py_int_nonneg.
  - now apply py_int_mono.
  - rewrite <- (Qfloor_Z W) at 2.
    rewrite py_int_floor by (eapply Qle_trans; eassumption).
    now apply Qfloor_resp_le.
Qed.

Lemma size_nonneg {A} (img : image A) : 0 <= fst (size img) /\ 0 <= snd (size img).
Proof. unfold size; simpl; lia. Qed.

(** The rectangle of a valid box with outward padding lies in the image. *)
Lemma pixel_rect_bounds (W H : Z) (box : box_norm_t) (pad : Z) :
  valid_box box -> 0 <= pad -> 0 <= W -> 0 <= H ->
  let '(x1, y1, x2, y2) := pixel_rect (W, H) box pad in
  0 <= x1 <= x2 /\ x2 <= W /\ 0 <= y1 <= y2 /\ y2 <= H.
Proof.
  destruct box as [[[l t] r] b]. intros [Hl [Hlr [Hr [Ht [Htb Hb]]]]] Hp HW HH.
  unfold pixel_rect.
  destruct (scale_bounds l r W Hl (Qlt_le_weak _ _ Hlr) Hr HW) as [A1 [A2 A3]].
  destruct (scale_bounds t b H Ht (Qlt_le_weak _ _ Htb) Hb HH) as [B1 [B2 B3]].
  lia.
Qed.

Lemma crop_ok (img : Image) (x1 y1 x2 y2 : Z) :
  x1 <= x2 -> y1 <= y2 ->
  exists c, crop img (x1, y1, x2, y2) = Ok c
            /\ size c = (x2 - x1, y2 - y1).
Proof.
  intros Hx Hy. unfold crop.
  destruct (x2 <? x1) eqn:Ex; [apply Z.ltb_lt in Ex; lia|].
  destruct (y2 <? y1) eqn:Ey; [apply Z.ltb_lt in Ey; lia|].
  simpl. eexists. split; [reflexivity|].
  unfold size. simpl. f_equal; lia.
Qed.

Lemma crop_from_image_norm_rect (img : Image) (box : box_norm_t) (pad : Z) :
  crop_from_image_norm img box pad = crop img (pixel_rect (size img) box pad).
Proof.
  unfold crop_from_image_norm, pixel_rect, convert_RGB.
  destruct (size img) as [W H]. destruct box as [[[l t] r] b]. reflexivity.
Qed.

Lemma crop_norm_rect (dir : JobDir) (img_path out_path : text) (img : Image)
  (box : box_norm_t) (pad : Z) :
  image_open dir img_path = Ok img ->
  crop_norm dir img_path out_path box pad =
    (c <- crop img (pixel_rect (size img) box pad) ;;
     d <- save dir out_path c ;;
     Ok (d, pixel_rect (size img) box pad)).
Proof.
  intros H. unfold crop_norm, pixel_rect, convert_RGB. rewrite H, bind_ok.
  destruct (size img) as [W Ht]. destruct box as [[[l t] r] b]. reflexivity.
Qed.

Lemma crop_from_image_norm_ok (img : Image) (box : box_norm_t) (pad : Z) :
  valid_box box -> 0 <= pad ->
  exists c, crop_from_image_norm img box pad = Ok c.
Proof.
  intros Hb Hp. rewrite crop_from_image_norm_rect.
  destruct (size_nonneg img) as [HW HH].
  pose proof (pixel_rect_bounds (fst (size img)) (snd (size img)) box pad Hb Hp HW HH) as B.
  rewrite <- surjective_pairing in B.
  destruct (pixel_rect (size img) box pad) as [[[x1 y1] x2] y2].
  destruct (crop_ok img x1 y1 x2 y2) as [c [Hc _]]; [lia | lia |].
  now exists c.
Qed.

(** *** Images with pixels *)

Lemma is_empty_size {A} (img : image A) :
  is_empty img = false <-> 0 < fst (size img) /\ 0 < snd (size img).
Proof.
  unfold is_empty, size. simpl. rewrite orb_false_iff, !Nat.eqb_neq. lia.
Qed.

(** The rectangle of a valid box padded by a pixel or more holds a pixel of
    an image that has one. *)
Lemma pixel_rect_proper (W H : Z) (box : box_norm_t) (pad : Z) :
  valid_box box -> 1 <= pad -> 1 <= W -> 1 <= H ->
  let '(x1, y1, x2, y2) := pixel_rect (W, H) box pad in
  x1 < x2 /\ y1 < y2.
Proof.
  destruct box as [[[l t] r] b]. intros [Hl [Hlr [Hr [Ht [Htb Hb]]]]] Hp HW HH.
  unfold pixel_rect.
  destruct (scale_bounds l r W Hl (Qlt_le_weak _ _ Hlr) Hr) as [A1 [A2 A3]]; [lia|].
  destruct (scale_bounds t b H Ht (Qlt_le_weak _ _ Htb) Hb) as [B1 [B2 B3]]; [lia|].
  lia.
Qed.

(** Whatever the padding, the corners are clamped to the image. *)
Lemma pixel_rect_clamped (W H : Z) (box : box_norm_t) (pad : Z) :
  0 <= W -> 0 <= H ->
  let '(x1, y1, x2, y2) := pixel_rect (W, H) box pad in
  0 <= x1 /\ x2 <= W /\ 0 <= y1 /\ y2 <= H.
Proof.
  destruct box as [[[l t] r] b]. intros HW HH. unfold pixel_rect. lia.
Qed.

Lemma crop_empty (img c : Image) (x1 y1 x2 y2 : Z) :
  crop img (x1, y1, x2, y2) = Ok c ->
  is_empty c = negb ((x1 <? x2) && (y1 <? y2)).
Proof.
  unfold crop. destruct (x2 <? x1) eqn:Ex; [discriminate|].
  destruct (y2 <? y1) eqn:Ey; [discriminate|]. simpl.
  destruct (size img) as [W H]. intros E. injection E as <-.
  unfold is_empty. simpl. apply Z.ltb_ge in Ex, Ey.
  destruct (Z.ltb_spec x1 x2); destruct (Z.ltb_spec y1 y2); simpl;
    rewrite ?orb_true_iff, ?orb_false_iff, ?Nat.eqb_eq, ?Nat.eqb_neq; lia.
Qed.

Lemma crop_from_image_norm_proper (img : Image) (box : box_norm_t) (pad : Z) :
  valid_box box -> 1 <= pad -> is_empty img = false ->
  exists c, crop_from_image_norm img box pad = Ok c /\ is_empty c = false.
Proof.
  intros Hb Hp He. rewrite crop_from_image_norm_rect.
  apply is_empty_size in He. destruct He as [HW HH].
  pose proof (pixel_rect_proper (fst (size img)) (snd (size img)) box pad Hb Hp
                ltac:(lia) ltac:(lia)) as B.
  rewrite <- surjective_pairing in B.
  destruct (pixel_rect (size img) box pad) as [[[x1 y1] x2] y2].
  destruct (crop_ok img x1 y1 x2 y2) as [c [Hc _]]; [lia | lia |].
  exists c. split; [exact Hc|]. rewrite (crop_empty _ _ _ _ _ _ Hc).
  destruct B as [Bx By]. apply Z.ltb_lt in Bx, By. now rewrite Bx, By.
Qed.

(** *** The directory *)

Lemma lookup_write (dir : JobDir) (n : text) (img : Image) :
  lookup (write dir n img) n
  = Some {| name := n; is_file := true; data := RasterImage img |}.
Proof.
  induction dir as [|e dir IH]; simpl.
  - now rewrite Txt_eqb_refl.
  - destruct (Txt.eqb (name e) n) eqn:E; simpl.
    + now rewrite Txt_eqb_refl.
    + now rewrite E.
Qed.

Lemma lookup_write_other (dir : JobDir) (n n' : text) (img : Image) :
  Txt.eqb n n' = false -> lookup (write dir n img) n' = lookup dir n'.
Proof.
  intros H. induction dir as [|e dir IH]; simpl.
  - now rewrite H.
  - destruct (Txt.eqb (name e) n) eqn:E; simpl.
    + rewrite H. apply Txt_eqb_eq in E. rewrite E. now rewrite H.
    + now rewrite IH.
Qed.

Lemma image_open_write (dir : JobDir) (n : text) (img : Image) :
  image_open (write dir n img) n = Ok img.
Proof. unfold image_open. now rewrite lookup_write. Qed.

Lemma image_open_write_other (dir : JobDir) (n n' : text) (img : Image) :
  Txt.eqb n n' = false -> image_open (write dir n img) n' = image_open dir n'.
Proof. intros H. unfold image_open. now rewrite lookup_write_other. Qed.

(** Saving writes the image, unless it has no pixels. *)
Lemma save_ok (dir : JobDir) (n : text) (img : Image) :
  is_empty img = false -> save dir n img = Ok (write dir n img).
Proof. intros H. unfold save. now rewrite H. Qed.

Lemma save_inv (dir dir' : JobDir) (n : text) (img : Image) :
  save dir n img = Ok dir' -> dir' = write dir n img /\ is_empty img = false.
Proof.
  unfold save. destruct (is_empty img); [discriminate|].
  intros H. injection H as <-. auto.
Qed.

Lemma save_raises (dir : JobDir) (n : text) (img : Image) (e : exn) :
  save dir n img = Raise e -> e = SystemError /\ is_empty img = true.
Proof.
  unfold save. destruct (is_empty img); [|discriminate].
  intros H. injection H as <-. auto.
Qed.
Ltac q_facts := vm_compute; repeat split; solve [reflexivity | discriminate].

(** C5 as amended.  For an image of size W x H and a normalized box
    (components in [0,1], left < right, top < bottom), both crop operations
    cut at one pixel rectangle [(x1, y1, x2, y2)], whose corners are clamped
    to the image whatever the padding: [0 <= x1], [x2 <= W], [0 <= y1],
    [y2 <= H].  With a padding [pad >= 0] the rectangle is ordered,
    [x1 <= x2] and [y1 <= y2], and [crop_from_image_norm] returns the crop: a
    padding that reaches past the image is clamped and raises nothing;
    [crop_norm] then writes that crop, unless it has no pixels, in which
    case the save raises.  With [pad >= 1] on an image that has pixels the
    crop has pixels and [crop_norm] returns. *)
Theorem crop_rect_clamped (dir : JobDir) (img_path out_path : text)
  (img : Image) (box : box_norm_t) (pad : Z) :
  valid_box box -> image_open dir img_path = Ok img ->
  exists x1 y1 x2 y2,
    pixel_rect (size img) box pad = (x1, y1, x2, y2)
    /\ crop_from_image_norm img box pad = crop img (x1, y1, x2, y2)
    /\ crop_norm dir img_path out_path box pad
       = (c <- crop img (x1, y1, x2, y2) ;;
          d <- save dir out_path c ;;
          Ok (d, (x1, y1, x2, y2)))
    /\ (0 <= x1 /\ x2 <= fst (size img) /\ 0 <= y1 /\ y2 <= snd (size img))
    /\ (0 <= pad ->
        x1 <= x2 /\ y1 <= y2
        /\ exists c,
            crop_from_image_norm img box pad = Ok c
            /\ size c = (x2 - x1, y2 - y1)
            /\ crop_norm dir img_path out_path box pad
               = if is_empty c then Raise SystemError
                 else Ok (write dir out_path c, (x1, y1, x2, y2)))
    /\ (1 <= pad -> is_empty img = false ->
        x1 < x2 /\ y1 < y2
        /\ exists c,
            crop_norm dir img_path out_path box pad
            = Ok (write dir out_path c, (x1, y1, x2, y2))).
Proof.
  intros Hb Ho.
  destruct (size_nonneg img) as [HW HH].
  rewrite (crop_norm_rect dir img_path out_path img box pad Ho).
  rewrite crop_from_image_norm_rect.
  pose proof (pixel_rect_clamped (fst (size img)) (snd (size img)) box pad HW HH) as C.
  rewrite <- surjective_pairing in C.
  destruct (pixel_rect (size img) box pad) as [[[x1 y1] x2] y2] eqn:R.
  exists x1, y1, x2, y2.
  split; [reflexivity|]. split; [reflexivity|]. split; [reflexivity|].
  split; [exact C|].
  assert (N : 0 <= pad ->
              x1 <= x2 /\ y1 <= y2
              /\ exists c, crop img (x1, y1, x2, y2) = Ok c
                           /\ size c = (x2 - x1, y2 - y1)).
  { intros Hp.
    pose proof (pixel_rect_bounds (fst (size img)) (snd (size img)) box pad
                  Hb Hp HW HH) as B.
    rewrite <- surjective_pairing, R in B.
    split; [lia|]. split; [lia|]. apply crop_ok; lia. }
  split.
  - intros Hp. destruct (N Hp) as [Hx [Hy [c [Hc Hs]]]].
    split; [exact Hx|]. split; [exact Hy|]. exists c.
    split; [exact Hc|]. split; [exact Hs|].
    rewrite Hc, bind_ok. unfold save. now destruct (is_empty c).
  - intros Hp He.
    destruct (N ltac:(lia)) as [_ [_ [c [Hc _]]]].
    apply is_empty_size in He. destruct He as [H1 H2].
    pose proof (pixel_rect_proper (fst (size img)) (snd (size img)) box pad
                  Hb Hp ltac:(lia) ltac:(lia)) as P.
    rewrite <- surjective_pairing, R in P.
    split; [tauto|]. split; [tauto|]. exists c.
    rewrite Hc, bind_ok, save_ok; [reflexivity|].
    rewrite (crop_empty _ _ _ _ _ _ Hc).
    destruct P as [Px Py]. apply Z.ltb_lt in Px, Py. now rewrite Px, Py.
Qed.

Lemma crop_rect_clamped_witness :
  valid_box TABLE_BOX
  /\ image_open Fixture.rendered_dir "page0.png" = Ok Fixture.page
  /\ exists x1 y1 x2 y2,
      pixel_rect (size Fixture.page) TABLE_BOX 10 = (x1, y1, x2, y2)
      /\ crop_from_image_norm Fixture.page TABLE_BOX 10
         = crop Fixture.page (x1, y1, x2, y2)
      /\ crop_norm Fixture.rendered_dir "page0.png" "table.png" TABLE_BOX 10
         = (c <- crop Fixture.page (x1, y1, x2, y2) ;;
            d <- save Fixture.rendered_dir "table.png" c ;;
            Ok (d, (x1, y1, x2, y2)))
      /\ (0 <= x1 /\ x2 <= fst (size Fixture.page)
          /\ 0 <= y1 /\ y2 <= snd (size Fixture.page))
      /\ (0 <= 10 ->
          x1 <= x2 /\ y1 <= y2
          /\ exists c,
              crop_from_image_norm Fixture.page TABLE_BOX 10 = Ok c
              /\ size c = (x2 - x1, y2 - y1)
              /\ crop_norm Fixture.rendered_dir "page0.png" "table.png" TABLE_BOX 10
                 = if is_empty c then Raise SystemError
                   else Ok (write Fixture.rendered_dir "table.png" c,
                            (x1, y1, x2, y2)))
      /\ (1 <= 10 -> is_empty Fixture.page = false ->
          x1 < x2 /\ y1 < y2
          /\ exists c,
              crop_norm Fixture.rendered_dir "page0.png" "table.png" TABLE_BOX 10
              = Ok (write Fixture.rendered_dir "table.png" c, (x1, y1, x2, y2))).
Proof.
  assert (Hb : valid_box TABLE_BOX) by q_facts.
  assert (Ho : image_open Fixture.rendered_dir "page0.png" = Ok Fixture.page)
    by reflexivity.
  split; [exact Hb|]. split; [exact Ho|].
  exact (crop_rect_clamped Fixture.rendered_dir "page0.png" "table.png"
           Fixture.page TABLE_BOX 10 Hb Ho).
Defined.

(** C5 as stated fails for a negative padding: on the 120 x 120 page the
    table box padded by -30 pixels gives the rectangle (37, 110, 82, 84),
    whose lower edge is above its upper edge, and both crop operations
    raise. *)
Lemma crop_raises_on_negative_padding :
  valid_box TABLE_BOX
  /\ image_open Fixture.rendered_dir "page0.png" = Ok Fixture.page
  /\ pixel_rect (size Fixture.page) TABLE_BOX (-30) = (37, 110, 82, 84)
  /\ crop_from_image_norm Fixture.page TABLE_BOX (-30) = Raise ValueError
  /\ crop_norm Fixture.rendered_dir "page0.png" "table.png" TABLE_BOX (-30)
     = Raise ValueError.
Proof. split; [q_facts|]. repeat split; reflexivity. Qed.

(** A crop without pixels is returned by the one operation and refused by
    the other: the save in [crop_norm] raises. *)
Example crop_without_pixels :
  let box := (0.5, 0.5, 0.6, 0.6)%Q in
  let small := {| width := 3; height := 3; px := fun _ _ => Fixture.white |} in
  let dir := write [] "page0.png" small in
  valid_box box
  /\ pixel_rect (size small) box 0 = (1, 1, 1, 1)
  /\ (exists c, crop_from_image_norm small box 0 = Ok c /\ size c = (0, 0))
  /\ crop_norm dir "page0.png" "out.png" box 0 = Raise SystemError.
Proof.
  cbv zeta. split; [q_facts|]. split; [reflexivity|].
  split; [|reflexivity]. eexists. split; reflexivity.
Qed.

(** C7.  Given the same image, box and padding, the crop from a file path and
    the crop of the image in memory cut at the same pixel rectangle, and the
    image the first one writes is the image the second one returns. *)
Theorem crop_paths_agree (dir : JobDir) (img_path out_path : text)
  (img : Image) (box : box_norm_t) (pad : Z) :
  image_open dir img_path = Ok img ->
  crop_from_image_norm img box pad = crop img (pixel_rect (size img) box pad)
  /\ crop_norm dir img_path out_path box pad
     = (c <- crop_from_image_norm img box pad ;;
        d <- save dir out_path c ;;
        Ok (d, pixel_rect (size img) box pad))
  /\ (forall dir' r,
         crop_norm dir img_path out_path box pad = Ok (dir', r) ->
         r = pixel_rect (size img) box pad
         /\ exists c, crop_from_image_norm img box pad = Ok c
                      /\ image_open dir' out_path = Ok c).
Proof.
  intros Ho.
  rewrite (crop_norm_rect dir img_path out_path img box pad Ho).
  rewrite crop_from_image_norm_rect.
  split; [reflexivity|]. split; [reflexivity|].
  intros dir' r H.
  destruct (crop img (pixel_rect (size img) box pad)) as [c|e]; [|discriminate].
  rewrite bind_ok in H.
  destruct (save dir out_path c) as [d|e] eqn:S; [|discriminate].
  rewrite bind_ok in H. injection H as <- <-.
  apply save_inv in S. destruct S as [-> _].
  split; [reflexivity|]. exists c. split; [reflexivity|].
  apply image_open_write.
Qed.

Lemma crop_paths_agree_witness :
  image_open Fixture.rendered_dir "page0.png" = Ok Fixture.page
  /\ crop_from_image_norm Fixture.page DIAGRAM_BOX 20
     = crop Fixture.page (pixel_rect (size Fixture.page) DIAGRAM_BOX 20)
  /\ crop_norm Fixture.rendered_dir "page0.png" "diagram.png" DIAGRAM_BOX 20
     = (c <- crop_from_image_norm Fixture.page DIAGRAM_BOX 20 ;;
        d <- save Fixture.rendered_dir "diagram.png" c ;;
        Ok (d, pixel_rect (size Fixture.page) DIAGRAM_BOX 20))
  /\ (forall dir' r,
         crop_norm Fixture.rendered_dir "page0.png" "diagram.png" DIAGRAM_BOX 20
           = Ok (dir', r) ->
         r = pixel_rect (size Fixture.page) DIAGRAM_BOX 20
         /\ exists c, crop_from_image_norm Fixture.page DIAGRAM_BOX 20 = Ok c
                      /\ image_open dir' "diagram.png" = Ok c).
Proof.
  assert (Ho : image_open Fixture.rendered_dir "page0.png" = Ok Fixture.page)
    by reflexivity.
  split; [exact Ho|].
  exact (crop_paths_agree Fixture.rendered_dir "page0.png" "diagram.png"
           Fixture.page DIAGRAM_BOX 20 Ho).
Defined.

(** ** Counting pixels *)

Lemma count_nonneg {A} (p : A -> bool) (l : list A) : 0 <= count p l.
Proof. unfold count. lia. Qed.










(** ** Bounding box, tightening and upscaling *)

Lemma filter_seq_in (f : nat -> bool) (a n x : nat) :
  In x (filter f (seq a n)) -> (a <= x < a + n)%nat.
Proof. intros H. apply filter_In in H. destruct H as [H _]. now apply in_seq in H. Qed.

Lemma filter_seq_hd_lt (f : nat -> bool) (n : nat) :
  forall a x rest, filter f (seq a n) = x :: rest ->
                   forall y, In y rest -> (x < y)%nat.
Proof.
  induction n as [|n IH]; intros a x rest H y I; simpl in H; [discriminate|].
  destruct (f a).
  - injection H as <- <-. apply filter_seq_in in I. lia.
  - exact (IH (S a) x rest H y I).
Qed.

Lemma last_in {A} (l : list A) (d : A) : l <> [] -> In (last l d) l.
Proof.
  induction l as [|a l IH]; intros H; [contradiction|].
  destruct l as [|b l]; [now left|].
  right. apply IH. discriminate.
Qed.

Lemma filter_seq_ends (f : nat -> bool) (n x : nat) (rest : list nat) :
  filter f (seq 0 n) = x :: rest ->
  (x <= last (x :: rest) O < n)%nat.
Proof.
  intros H.
  assert (I : In (last (x :: rest) O) (x :: rest)) by (apply last_in; discriminate).
  assert (B : (0 <= last (x :: rest) O < 0 + n)%nat).
  { apply (filter_seq_in f). rewrite H. exact I. }
  destruct I as [E | I].
  - rewrite <- E. lia.
  - pose proof (filter_seq_hd_lt f n 0 x rest H _ I). lia.
Qed.

Lemma getbbox_bounds (g : Gray) (x1 y1 x2 y2 : Z) :
  getbbox g = Some (x1, y1, x2, y2) ->
  (0 <= x1 < x2 /\ x2 <= Z.of_nat (width g) /\ 0 <= y1 < y2 /\ y2 <= Z.of_nat (height g))%Z.
Proof.
  unfold getbbox, range.
  set (fc := fun x => existsb (fun y => negb (px g x y =? 0)%Z) (seq 0 (height g))).
  set (fr := fun y => existsb (fun x => negb (px g x y =? 0)%Z) (seq 0 (width g))).
  destruct (filter fc (seq 0 (width g))) as [|cx cs] eqn:Ec; [discriminate|].
  destruct (filter fr (seq 0 (height g))) as [|ry rs] eqn:Er; [discriminate|].
  intros H. injection H as <- <- <- <-.
  pose proof (filter_seq_ends fc (width g) cx cs Ec).
  pose proof (filter_seq_ends fr (height g) ry rs Er).
  simpl last in *. lia.
Qed.

Section Tighten.
Context {uni : Unicode} {cap : Capabilities}.

(** Tightening never fails: the box it cuts lies inside the image. *)
Lemma tighten_ok (img : Image) : exists ti, _tighten_to_content img = Ok ti.
Proof.
  unfold _tighten_to_content.
  destruct (getbbox _) as [[[[x1 y1] x2] y2]|] eqn:E; [|now exists img].
  apply getbbox_bounds in E. simpl width in E. simpl height in E.
  destruct (size_nonneg img) as [HW HH]. unfold size in *. simpl fst in *. simpl snd in *.
  destruct (crop_ok img (Z.max 0 (x1 - 8)) (Z.max 0 (y1 - 8))
              (Z.min (Z.of_nat (width img)) (x2 + 8))
              (Z.min (Z.of_nat (height img)) (y2 + 8)))
    as [c [Hc _]]; [lia | lia |].
  now exists c.
Qed.

(** Upscaling by 7 leaves an image with a side of at most one pixel alone
    and otherwise repeats every pixel 7 x 7 times. *)
Lemma upscale_7 (img : Image) :
  (_upscale img 7 = Ok img /\ (width img <= 1 \/ height img <= 1)%nat)
  \/ _upscale img 7 = Ok (resize_nearest img 7).
Proof.
  unfold _upscale, size.
  destruct (Z.of_nat (width img) <=? 1)%Z eqn:Ew.
  - left. split; [reflexivity|]. apply Z.leb_le in Ew. lia.
  - destruct (Z.of_nat (height img) <=? 1)%Z eqn:Eh.
    + left. split; [reflexivity|]. apply Z.leb_le in Eh. lia.
    + right. reflexivity.
Qed.

Lemma upscale_ok (img : Image) : exists bi, _upscale img 7 = Ok bi.
Proof. destruct (upscale_7 img) as [[H _] | H]; eauto. Qed.

(** ** The heuristic *)



End Tighten.

(** *** Fractions of a length *)

Lemma le_floor_iff (a : Z) (q : Q) : (a <= Qfloor q)%Z <-> (inject_Z a <= q)%Q.
Proof.
  split; intros H.
  - apply Qle_trans with (inject_Z (Qfloor q)); [now rewrite <- Zle_Qle|].
    apply Qfloor_le.
  - rewrite <- (Qfloor_Z a). now apply Qfloor_resp_le.
Qed.







Section Fallback.
Context {uni : Unicode} {cap : Capabilities}.





End Fallback.
(** ** How computations end *)

Lemma outcome_bind {A B} (E : exn -> Prop) (P : A -> Prop) (Q : B -> Prop)
  (m : result A) (k : A -> result B) :
  outcome E P m -> (forall a, m = Ok a -> P a -> outcome E Q (k a)) ->
  outcome E Q (bind m k).
Proof. destruct m as [a|e]; simpl; intros H K; [now apply K | exact H]. Qed.

Lemma outcome_weaken {A} (E E' : exn -> Prop) (Q Q' : A -> Prop) (m : result A) :
  (forall e, E e -> E' e) -> (forall a, Q a -> Q' a) ->
  outcome E Q m -> outcome E' Q' m.
Proof. destruct m as [a|e]; simpl; auto. Qed.

Lemma outcome_ok {A} (E : exn -> Prop) (Q : A -> Prop) (a : A) :
  Q a -> outcome E Q (Ok a).
Proof. auto. Qed.

Lemma outcome_returned {A} (E : exn -> Prop) (Q : A -> Prop) (m : result A) (a : A) :
  outcome E Q m -> m = Ok a -> Q a.
Proof. intros H ->. exact H. Qed.

Lemma outcome_raised {A} (E : exn -> Prop) (Q : A -> Prop) (m : result A) (e : exn) :
  outcome E Q m -> m = Raise e -> E e.
Proof. intros H ->. exact H. Qed.

(** A loop keeps a relation between the items done and its state. *)
Lemma outcome_foldM {A S} (E : exn -> Prop) (P : A -> Prop)
  (R : list A -> S -> Prop) (f : S -> A -> result S) :
  (forall done a s, P a -> R done s -> outcome E (R (done ++ [a])%list) (f s a)) ->
  forall l, Forall P l ->
  forall done s, R done s -> outcome E (R (done ++ l)%list) (foldM f l s).
Proof.
  intros Step. induction 1 as [|a l Pa Pl IH]; intros done s H.
  - rewrite app_nil_r. exact H.
  - simpl foldM. apply (outcome_bind E (R (done ++ [a])%list)).
    + now apply Step.
    + intros s' _ H'. specialize (IH _ _ H'). now rewrite <- app_assoc in IH.
Qed.

Lemma aborts_weaken (small small' garbled garbled' : Prop) (e : exn) :
  (small -> small') -> (garbled -> garbled') ->
  aborts small garbled e -> aborts small' garbled' e.
Proof. unfold aborts. tauto. Qed.


(** ** The steps of the extraction *)

Lemma foldM_cons {A S} (f : S -> A -> result S) (a : A) (l : list A) (s : S) :
  foldM f (a :: l) s = (s' <- f s a ;; foldM f l s').
Proof. reflexivity. Qed.

(** *** The input file *)

Lemma find_input_first (dir : JobDir) (p : entry) :
  _find_input_file dir = Ok p <->
  exists before after,
    dir = (before ++ p :: after)%list
    /\ qualifies p = true
    /\ forall q, In q before -> qualifies q = false.
Proof.
  unfold _find_input_file. fold qualifies.
  change (fun p0 : entry => Py.startswith (name p0) "input" && is_file p0)
    with qualifies.
  induction dir as [|e dir IH]; simpl.
  - split; [discriminate|]. intros [b [a [H _]]]. destruct b; discriminate.
  - destruct (qualifies e) eqn:E.
    + split.
      * intros H. injection H as <-. exists [], dir. repeat split; auto.
        intros q [].
      * intros [b [a [H [Q N]]]]. destruct b as [|e' b].
        -- simpl in H. injection H as -> _. reflexivity.
        -- simpl in H. injection H as <- _.
           specialize (N e (or_introl eq_refl)). congruence.
    + rewrite IH. split.
      * intros [b [a [-> [Q N]]]]. exists (e :: b), a. repeat split; auto.
        intros q [<- | I]; auto.
      * intros [b [a [H [Q N]]]]. destruct b as [|e' b].
        -- simpl in H. injection H as -> _. congruence.
        -- simpl in H. injection H as <- ->. exists b, a. repeat split; auto.
           intros q I. apply N. now right.
Qed.

Lemma find_input_none (dir : JobDir) :
  match _find_input_file dir with
  | Ok p => qualifies p = true /\ In p dir
  | Raise e => e = FileNotFoundError /\ forall q, In q dir -> qualifies q = false
  end.
Proof.
  unfold _find_input_file.
  change (fun p0 : entry => Py.startswith (name p0) "input" && is_file p0)
    with qualifies.
  destruct (find qualifies dir) as [p|] eqn:E.
  - apply find_some in E. tauto.
  - split; [reflexivity|]. intros q I. exact (find_none _ _ E q I).
Qed.

Section Steps.
Context {uni : Unicode} {cap : Capabilities}.

(** *** Cells *)

Lemma parse_numeric_cell_ok (raw : text) (cell_img : option Image) :
  exists v, parse_numeric_cell raw cell_img = Ok v.
Proof.
  unfold parse_numeric_cell.
  destruct (Re.search NUMERIC_RE (numeric_text raw)) as [m|].
  - destruct (Py.split_once (ch ".") (Re.text_of m)) as [[l r]|]; eauto.
  - destruct cell_img as [img|]; [|eauto].
    destruct (tighten_ok img) as [ti Ht]. destruct (upscale_ok ti) as [bi Hu].
    rewrite Ht, bind_ok, Hu, bind_ok.
    destruct (_looks_like_straight_one bi); eauto.
Qed.

Lemma cell_step_value (grid_img : Image) (cells : list text) (c : Z) :
  cell_step grid_img cells c = (v <- cell_value grid_img c ;; Ok (cells ++ [v])%list).
Proof.
  unfold cell_step, cell_value, cell_rect. destruct (size grid_img) as [gw gh].
  destruct (crop grid_img _) as [cell_img|e]; [|reflexivity].
  rewrite !bind_ok.
  destruct (parse_numeric_cell _ (Some cell_img)) as [v|e]; reflexivity.
Qed.

Lemma twelfth_nonneg (c : Z) : (0 <= c)%Z -> (0 <= inject_Z c / 12)%Q.
Proof.
  intros H. unfold Qdiv. apply Qmult_le_0_compat; [now apply inject_Z_nonneg|].
  unfold Qle. cbn. lia.
Qed.

Lemma twelfth_mono (c : Z) : (inject_Z c / 12 <= inject_Z (c + 1) / 12)%Q.
Proof.
  unfold Qdiv. apply Qmult_le_compat_r.
  - rewrite <- Zle_Qle. lia.
  - unfold Qle. cbn. lia.
Qed.

(** The twelfths of a grid are proper rectangles, so every cell has a value. *)
Lemma cell_value_ok (grid_img : Image) (c : Z) :
  (0 <= c)%Z -> exists v, cell_value grid_img c = Ok v.
Proof.
  intros Hc. unfold cell_value, cell_rect.
  destruct (size_nonneg grid_img) as [HW HH].
  destruct (size grid_img) as [gw gh]. simpl in HW, HH.
  destruct (crop_ok grid_img
              (py_int ((inject_Z c / 12) * inject_Z gw)) 0
              (py_int ((inject_Z (c + 1) / 12) * inject_Z gw)) gh)
    as [cell_img [E _]].
  - apply py_int_mono.
    + apply Qmult_le_0_compat; [now apply twelfth_nonneg | now apply inject_Z_nonneg].
    + apply Qmult_le_compat_r; [apply twelfth_mono | now apply inject_Z_nonneg].
  - exact HH.
  - rewrite E, bind_ok. apply parse_numeric_cell_ok.
Qed.

Lemma cells_collect (grid_img : Image) (cs : list Z) :
  Forall (fun c => 0 <= c)%Z cs ->
  forall acc, exists vs,
    foldM (cell_step grid_img) cs acc = Ok (acc ++ vs)%list
    /\ Forall2 (fun c v => cell_value grid_img c = Ok v) cs vs.
Proof.
  induction 1 as [|c cs Hc Hcs IH]; intros acc.
  - exists []. rewrite app_nil_r. split; [reflexivity | constructor].
  - destruct (cell_value_ok grid_img c Hc) as [v Hv].
    destruct (IH (acc ++ [v])%list) as [vs [Hf Hall]].
    exists (v :: vs). rewrite foldM_cons, cell_step_value, Hv.
    rewrite bind_ok. cbv beta. rewrite bind_ok. cbv beta. rewrite Hf.
    rewrite <- app_assoc. split; [reflexivity | now constructor].
Qed.

(** *** Dates *)

Lemma all_chars_join (P : char -> bool) (sep : text) (parts : list text) :
  Py.all_chars P sep = true ->
  Forall (fun t => Py.all_chars P t = true) parts ->
  Py.all_chars P (Py.join sep parts) = true.
Proof.
  intros Hs. induction 1 as [|p rest Hp Hr IH]; [reflexivity|].
  destruct rest as [|q rest]; [exact Hp|].
  change (Py.join sep (p :: q :: rest)) with (p ++ sep ++ Py.join sep (q :: rest)).
  now rewrite !all_chars_app, Hp, Hs, IH.
Qed.

(** What [ocr_easy] returns is made of the characters of the texts read and
    of the space that joins them. *)
Lemma ocr_easy_chars (P : char -> bool) (img : Image) (handwriting : bool)
  (allowlist : text) :
  allowlist <> "" -> P (ch " ") = true ->
  Forall (fun t => Py.all_chars P t = true)
    (readtext (if handwriting then preprocess_handwriting_soft img
               else preprocess_printed img) (Some allowlist)) ->
  Py.all_chars P (ocr_easy img handwriting (Some allowlist)) = true.
Proof.
  intros Ha Hsp H. unfold ocr_easy.
  destruct allowlist as [|a0 al]; [contradiction|]. simpl nonempty. cbv iota.
  apply all_chars_strip.
  apply all_chars_join; [change (P (ch " ") && true = true); now rewrite Hsp|].
  apply Forall_forall. intros t I. apply in_map_iff in I.
  destruct I as [t0 [<- I]]. apply filter_In in I. destruct I as [I _].
  apply all_chars_strip. rewrite Forall_forall in H. now apply H.
Qed.

Lemma ocr_date_plain (img : Image) :
  plain_reader -> plain_digits (ocr_easy img true (Some "0123456789/")) = true.
Proof.
  intros R. unfold plain_digits.
  apply (ocr_easy_chars _ img true "0123456789/"); [discriminate | reflexivity|].
  apply R.
Qed.


Lemma ocr_date_cell_outcome (date_img : Image) (small : Prop) :
  outcome (aborts small (~ plain_reader)) (fun _ => True) (ocr_date_cell date_img).
Proof.
  unfold ocr_date_cell.
  destruct (tighten_ok date_img) as [ti Ht]. destruct (upscale_ok ti) as [bi Hu].
  rewrite Ht, bind_ok, Hu, bind_ok.
  destruct (date_of_raw _) as [r|e] eqn:E; [exact I|].
  apply date_of_raw_raises in E. destruct E as [-> P]. right.
  split; [reflexivity|]. intros R.
  rewrite (ocr_date_plain bi R) in P. discriminate.
Qed.

End Steps.
(** ** The extraction as a whole *)

Lemma forall2_enumerate {A B} (P : A -> B -> Prop) (l : list A) :
  forall k rs,
    Forall2 (fun ib r => P (snd ib) r) (enumerate k l) rs -> Forall2 P l rs.
Proof.
  induction l as [|a l IH]; intros k rs H; simpl in H.
  - inversion H. constructor.
  - inversion H as [|ib r ibs rs' Hp Hrest]; subst. constructor; [exact Hp|].
    now apply (IH (k + 1)%Z).
Qed.

Lemma row_boxes_valid : Forall (fun rb => valid_box rb /\ spans 1 7 rb) ROW_BOXES.
Proof. repeat constructor; q_facts. Qed.

Lemma header_boxes_valid : Forall (fun kb => valid_box (snd kb)) HEADER_BOXES.
Proof. repeat constructor; q_facts. Qed.

Lemma forall_enumerate {A} (P : A -> Prop) (l : list A) :
  Forall P l -> forall k, Forall (fun ib => P (snd ib)) (enumerate k l).
Proof. induction 1; intros k; simpl; constructor; auto. Qed.

(** *** Boxes that take up a pixel *)

(** Two fractions of a length that lie a pixel or more apart are truncated
    to different pixels. *)
Lemma scale_strict (l r : Q) (W : Z) :
  (0 <= l)%Q -> 0 <= W -> (1 <= (r - l) * inject_Z W)%Q ->
  py_int (l * inject_Z W) < py_int (r * inject_Z W).
Proof.
  intros Hl HW H. pose proof (inject_Z_nonneg W HW) as HQ.
  assert (H0 : (0 <= l * inject_Z W)%Q) by now apply Qmult_le_0_compat.
  assert (H1 : (l * inject_Z W + 1 <= r * inject_Z W)%Q) by lra.
  rewrite (py_int_floor _ H0), py_int_floor by lra.
  assert (F : Qfloor (l * inject_Z W) + 1 <= Qfloor (r * inject_Z W)); [|lia].
  apply le_floor_iff. rewrite inject_Z_plus.
  pose proof (Qfloor_le (l * inject_Z W)). change (inject_Z 1) with 1%Q. lra.
Qed.

Lemma spans_sized {A} (w h : nat) (box : box_norm_t) (img : image A) :
  valid_box box -> spans (Z.of_nat w) (Z.of_nat h) box -> sized w h img ->
  spans (fst (size img)) (snd (size img)) box.
Proof.
  destruct box as [[[l t] r] b]. intros [Hl [Hlr [Hr [Ht [Htb Hb]]]]] [S1 S2] [Z1 Z2].
  unfold spans, size. simpl fst. simpl snd.
  assert (Q1 : (inject_Z (Z.of_nat w) <= inject_Z (Z.of_nat (width img)))%Q)
    by (rewrite <- Zle_Qle; lia).
  assert (Q2 : (inject_Z (Z.of_nat h) <= inject_Z (Z.of_nat (height img)))%Q)
    by (rewrite <- Zle_Qle; lia).
  split.
  - apply Qle_trans with ((r - l) * inject_Z (Z.of_nat w))%Q; [exact S1|].
    rewrite !(Qmult_comm (r - l)). apply Qmult_le_compat_r; [exact Q1 | lra].
  - apply Qle_trans with ((b - t) * inject_Z (Z.of_nat h))%Q; [exact S2|].
    rewrite !(Qmult_comm (b - t)). apply Qmult_le_compat_r; [exact Q2 | lra].
Qed.

(** The rectangle of a box that takes up a pixel of the image holds one. *)
Lemma pixel_rect_spanned (W H : Z) (box : box_norm_t) (pad : Z) :
  valid_box box -> 0 <= pad -> 0 <= W -> 0 <= H -> spans W H box ->
  let '(x1, y1, x2, y2) := pixel_rect (W, H) box pad in
  x1 < x2 /\ y1 < y2.
Proof.
  destruct box as [[[l t] r] b].
  intros [Hl [Hlr [Hr [Ht [Htb Hb]]]]] Hp HW HH [S1 S2]. unfold pixel_rect.
  destruct (scale_bounds l r W Hl (Qlt_le_weak _ _ Hlr) Hr HW) as [A1 [A2 A3]].
  destruct (scale_bounds t b H Ht (Qlt_le_weak _ _ Htb) Hb HH) as [B1 [B2 B3]].
  pose proof (scale_strict l r W Hl HW S1).
  pose proof (scale_strict t b H Ht HH S2).
  lia.
Qed.

Lemma crop_from_image_norm_spanned (w h : nat) (img c : Image) (box : box_norm_t)
  (pad : Z) :
  valid_box box -> 0 <= pad -> spans (Z.of_nat w) (Z.of_nat h) box ->
  sized w h img -> crop_from_image_norm img box pad = Ok c ->
  is_empty c = false.
Proof.
  intros Hb Hp Hs Hz Hc. rewrite crop_from_image_norm_rect in Hc.
  destruct (size_nonneg img) as [HW HH].
  pose proof (pixel_rect_spanned (fst (size img)) (snd (size img)) box pad
                Hb Hp HW HH (spans_sized w h box img Hb Hs Hz)) as B.
  rewrite <- surjective_pairing in B.
  destruct (pixel_rect (size img) box pad) as [[[x1 y1] x2] y2].
  rewrite (crop_empty _ _ _ _ _ _ Hc).
  destruct B as [Bx By]. apply Z.ltb_lt in Bx, By. now rewrite Bx, By.
Qed.

Lemma crop_from_image_norm_padded (img c : Image) (box : box_norm_t) (pad : Z) :
  valid_box box -> 1 <= pad -> is_empty img = false ->
  crop_from_image_norm img box pad = Ok c -> is_empty c = false.
Proof.
  intros Hb Hp He Hc.
  destruct (crop_from_image_norm_proper img box pad Hb Hp He) as [c' [E N]].
  rewrite Hc in E. now injection E as <-.
Qed.

Lemma sized_not_empty {A} (w h : nat) (img : image A) :
  (1 <= w)%nat -> (1 <= h)%nat -> sized w h img -> is_empty img = false.
Proof.
  intros Hw Hh [Z1 Z2]. unfold is_empty.
  rewrite orb_false_iff, !Nat.eqb_neq. lia.
Qed.

Lemma crop_size (img c : Image) (x1 y1 x2 y2 : Z) :
  crop img (x1, y1, x2, y2) = Ok c ->
  x1 <= x2 /\ y1 <= y2 /\ size c = (x2 - x1, y2 - y1).
Proof.
  intros H. unfold crop in H.
  destruct (x2 <? x1) eqn:Ex; [discriminate|].
  destruct (y2 <? y1) eqn:Ey; [discriminate|]. simpl in H.
  apply Z.ltb_ge in Ex, Ey. destruct (size img) as [W Ht].
  injection H as <-. unfold size. simpl.
  split; [exact Ex|]. split; [exact Ey|]. f_equal; lia.
Qed.

(** On a page of 20 x 10 pixels or more the table crop has the 7 rows of
    pixels that its row boxes need. *)
Lemma table_roomy (page0 table_img : Image) :
  sized 20 10 page0 ->
  crop_from_image_norm page0 TABLE_BOX 10 = Ok table_img ->
  sized 1 7 table_img.
Proof.
  intros [Z1 Z2] Hc. rewrite crop_from_image_norm_rect in Hc.
  unfold pixel_rect, TABLE_BOX, size in Hc.
  set (W := Z.of_nat (width page0)) in *. set (H := Z.of_nat (height page0)) in *.
  assert (HW : 20 <= W) by (unfold W; lia).
  assert (HH : 10 <= H) by (unfold H; lia).
  destruct (scale_bounds 0.06 0.94 W) as [A1 [A2 A3]]; [q_facts | q_facts | q_facts | lia |].
  destruct (scale_bounds 0.67 0.95 H) as [B1 [B2 B3]]; [q_facts | q_facts | q_facts | lia |].
  apply crop_size in Hc. destruct Hc as [_ [_ Hs]].
  unfold size in Hs. injection Hs as Hw Hh. unfold sized. lia.
Qed.

(** *** The debug images *)

Section Extract.
Context {uni : Unicode} {cap : Capabilities}.

Lemma save_table_debug_saves (dir : JobDir) (t : Image) (out : text) :
  exists img, save_table_debug dir t out = save dir out img /\ size img = size t.
Proof.
  unfold save_table_debug, convert_RGB. destruct (size t) as [W H] eqn:Es.
  eexists. split; [reflexivity|].
  simpl fold_left. unfold TABLE_TITLE_BOX. cbv beta iota zeta.
  repeat first [rewrite draw_text_size | rewrite draw_rectangle_size].
  exact Es.
Qed.

Lemma debug_boxes_size (bbs : list labelled_box) :
  forall img,
    size (fold_left
            (fun (im : Image) (bb : labelled_box) =>
               let '(x1, y1, x2, y2, color, label) := bb in
               let im := draw_rectangle im (x1, y1, x2, y2) color 4 in
               if nonempty label then draw_text im (x1 + 6, y1 + 6) label color
               else im) bbs img)
    = size img.
Proof.
  induction bbs as [|[[[[[x1 y1] x2] y2] color] label] bbs IH]; intros img;
    [reflexivity|].
  simpl fold_left. rewrite IH.
  destruct (nonempty label);
    repeat first [rewrite draw_text_size | rewrite draw_rectangle_size];
    reflexivity.
Qed.

Lemma is_empty_of_size {A B} (a : image A) (b : image B) :
  size a = size b -> is_empty a = is_empty b.
Proof.
  unfold size, is_empty. intros H. injection H as Hw Hh.
  apply Nat2Z.inj in Hw, Hh. now rewrite Hw, Hh.
Qed.

(** *** The page *)

Lemma raster_step (dir : JobDir) (p : entry) :
  (if Txt.eqb (Py.lower (Py.suffix (name p))) ".pdf"
   then _render_pdf_page0_to_png p "page0.png" dir
   else img <- open_entry p ;; save dir "page0.png" (convert_RGB img))
  = (page <- rasterized p ;;
     if Txt.eqb (Py.lower (Py.suffix (name p))) ".pdf"
     then Ok (write dir "page0.png" page)
     else save dir "page0.png" page).
Proof.
  unfold rasterized, _render_pdf_page0_to_png, open_entry, convert_RGB.
  destruct (Txt.eqb _ ".pdf"); destruct (data p) as [[|pg pgs]|img|]; reflexivity.
Qed.

(** *** Crops that are written *)

Lemma crop_norm_outcome (dir : JobDir) (img_path out_path : text) (img : Image)
  (box : box_norm_t) (pad : Z) (garbled : Prop) :
  valid_box box -> 1 <= pad -> image_open dir img_path = Ok img ->
  outcome (aborts (is_empty img = true) garbled)
    (fun dr => exists c,
         dr = (write dir out_path c, pixel_rect (size img) box pad)
         /\ crop_from_image_norm img box pad = Ok c
         /\ is_empty c = false)
    (crop_norm dir img_path out_path box pad).
Proof.
  intros Hb Hp Ho.
  rewrite (crop_norm_rect dir img_path out_path img box pad Ho).
  destruct (crop_from_image_norm_ok img box pad Hb ltac:(lia)) as [c Hc].
  pose proof Hc as Hc'. rewrite crop_from_image_norm_rect in Hc'.
  rewrite Hc', bind_ok. unfold save.
  destruct (is_empty c) eqn:Ec; simpl.
  - left. split; [reflexivity|].
    destruct (is_empty img) eqn:Ei; [reflexivity|].
    rewrite (crop_from_image_norm_padded img c box pad Hb Hp Ei Hc) in Ec.
    discriminate.
  - exists c. auto.
Qed.

(** *** Rows *)

Lemma row_step_outcome (job_id : text) (table_img page0 : Image) (dir : JobDir)
  (rows_out : list RowRecord) (row_assets : list (text * list (text * text)))
  (idx : Z) (rb : box_norm_t) :
  valid_box rb -> spans 1 7 rb -> image_open dir "page0.png" = Ok page0 ->
  outcome (aborts (~ sized 1 7 table_img) (~ plain_reader))
    (fun st =>
       image_open (fst (fst st)) "page0.png" = Ok page0
       /\ exists row,
           snd (fst st) = (rows_out ++ [row])%list /\ row_of table_img rb row)
    (row_step job_id table_img (dir, rows_out, row_assets) (idx, rb)).
Proof.
  intros Hb Hs Hp. unfold row_step.
  change (fst PART_X, 0.0, snd PART_X, 1.0)%Q with (band PART_X).
  change (fst GRID_X, 0.0, snd GRID_X, 1.0)%Q with (band GRID_X).
  change (fst DATE_X, 0.0, snd DATE_X, 1.0)%Q with (band DATE_X).
  change (fst CONFIRM_X, 0.0, snd CONFIRM_X, 1.0)%Q with (band CONFIRM_X).
  destruct (crop_from_image_norm_ok table_img rb 0 Hb) as [row_img E0]; [lia|].
  destruct (crop_from_image_norm_ok row_img (band PART_X) 2) as [part_img E1];
    [q_facts | lia |].
  destruct (crop_from_image_norm_ok row_img (band GRID_X) 2) as [grid_img E2];
    [q_facts | lia |].
  destruct (crop_from_image_norm_ok row_img (band DATE_X) 2) as [date_img E3];
    [q_facts | lia |].
  destruct (crop_from_image_norm_ok row_img (band CONFIRM_X) 2) as [conf_img E4];
    [q_facts | lia |].
  rewrite E0, bind_ok. cbv beta. rewrite E1, bind_ok. cbv beta.
  rewrite E2, bind_ok. cbv beta. rewrite E3, bind_ok. cbv beta.
  rewrite E4, bind_ok. cbv beta.
  assert (Room : forall X c,
             valid_box (band X) -> crop_from_image_norm row_img (band X) 2 = Ok c ->
             is_empty c = true -> ~ sized 1 7 table_img).
  { intros X c HX Hc He Hz.
    pose proof (crop_from_image_norm_spanned 1 7 table_img row_img rb 0
                  Hb ltac:(lia) Hs Hz E0) as Hr.
    rewrite (crop_from_image_norm_padded row_img c (band X) 2 HX ltac:(lia) Hr Hc)
      in He. discriminate. }
  cbv zeta. unfold save.
  destruct (is_empty part_img) eqn:N1;
    [left; split; [reflexivity|]; apply (Room PART_X part_img); auto; q_facts|].
  rewrite bind_ok.
  destruct (is_empty date_img) eqn:N3;
    [left; split; [reflexivity|]; apply (Room DATE_X date_img); auto; q_facts|].
  rewrite bind_ok.
  destruct (is_empty conf_img) eqn:N4;
    [left; split; [reflexivity|]; apply (Room CONFIRM_X conf_img); auto; q_facts|].
  rewrite bind_ok.
  assert (Hc : Forall (fun c => 0 <= c)%Z (map Z.of_nat (range 12))).
  { apply Forall_forall. intros c I. apply in_map_iff in I.
    destruct I as [n [<- _]]. lia. }
  destruct (cells_collect grid_img (map Z.of_nat (range 12)) Hc []) as [vs [Hf Hall]].
  pose proof (Forall2_length Hall) as L.
  do 12 (destruct vs as [|? vs]; [discriminate L|]).
  destruct vs; [|discriminate L].
  rewrite Hf, bind_ok. cbv beta.
  pose proof (ocr_date_cell_outcome date_img (~ sized 1 7 table_img)) as D.
  destruct (ocr_date_cell date_img) as [[d r]|e] eqn:Ed; [|exact D].
  rewrite bind_ok. cbv beta iota. simpl outcome. simpl fst. simpl snd.
  split.
  - rewrite !image_open_write_other by reflexivity. exact Hp.
  - eexists. split; [reflexivity|].
    exists row_img, part_img, grid_img, date_img, conf_img.
    repeat split; try assumption; try reflexivity.
Qed.

Lemma rows_outcome (job_id : text) (table_img page0 : Image)
  (l : list (Z * box_norm_t)) :
  Forall (fun ib => valid_box (snd ib) /\ spans 1 7 (snd ib)) l ->
  forall dir row_assets,
    image_open dir "page0.png" = Ok page0 ->
    outcome (aborts (~ sized 1 7 table_img) (~ plain_reader))
      (fun st =>
         image_open (fst (fst st)) "page0.png" = Ok page0
         /\ Forall2 (fun ib r => row_of table_img (snd ib) r) l (snd (fst st)))
      (foldM (row_step job_id table_img) l (dir, [], row_assets)).
Proof.
  intros Hl dir row_assets Hp.
  pose proof (outcome_foldM (aborts (~ sized 1 7 table_img) (~ plain_reader))
                (fun ib => valid_box (snd ib) /\ spans 1 7 (snd ib))
                (fun done st =>
                   image_open (fst (fst st)) "page0.png" = Ok page0
                   /\ Forall2 (fun ib r => row_of table_img (snd ib) r) done
                        (snd (fst st)))
                (row_step job_id table_img)) as F.
  apply (F) with (done := []) (l := l); [|exact Hl|].
  - intros done [idx rb] [[d rows_out] assets] [Hb Hs] [Hd Hr].
    simpl fst in *. simpl snd in *.
    eapply outcome_weaken;
      [| |exact (row_step_outcome job_id table_img page0 d rows_out
                   assets idx rb Hb Hs Hd)].
    + intros e He. exact He.
    + cbv beta. intros st [Hd' [row [Er Hrow]]]. split; [exact Hd'|].
      rewrite Er. apply Forall2_app; [exact Hr|].
      constructor; [exact Hrow | constructor].
  - simpl. split; [exact Hp | constructor].
Qed.

(** *** Header fields *)

Lemma header_step_outcome (job_id : text) (page0 table_img : Image)
  (st : header_state) (key : text) (box : box_norm_t) :
  valid_box box ->
  image_open (fst (fst (fst st))) "page0.png" = Ok page0 ->
  image_open (fst (fst (fst st))) "table.png" = Ok table_img ->
  outcome (aborts (is_empty page0 = true) False)
    (fun st' =>
       image_open (fst (fst (fst st'))) "page0.png" = Ok page0
       /\ image_open (fst (fst (fst st'))) "table.png" = Ok table_img)
    (header_step job_id "page0.png" st (key, box)).
Proof.
  destruct st as [[[dir h] a] b]. simpl fst. intros Hb Hp Ht.
  unfold header_step.
  pose proof (crop_norm_outcome dir "page0.png" ("header_" ++ key ++ ".png")
                page0 box 10 False Hb ltac:(lia) Hp) as C.
  destruct (crop_norm dir "page0.png" ("header_" ++ key ++ ".png") box 10)
    as [[d r]|e]; [|exact C].
  destruct C as [c [E [_ _]]]. injection E as -> ->.
  rewrite bind_ok. cbv beta iota.
  rewrite image_open_write, bind_ok. cbv beta.
  simpl outcome. simpl fst.
  rewrite !image_open_write_other by reflexivity. auto.
Qed.

Lemma headers_outcome (job_id : text) (page0 table_img : Image)
  (l : list (text * box_norm_t)) :
  Forall (fun kb => valid_box (snd kb)) l ->
  forall st : header_state,
    image_open (fst (fst (fst st))) "page0.png" = Ok page0 ->
    image_open (fst (fst (fst st))) "table.png" = Ok table_img ->
    outcome (aborts (is_empty page0 = true) False)
      (fun st' =>
         image_open (fst (fst (fst st'))) "page0.png" = Ok page0
         /\ image_open (fst (fst (fst st'))) "table.png" = Ok table_img)
      (foldM (header_step job_id "page0.png") l st).
Proof.
  intros Hl st Hp Ht.
  pose proof (outcome_foldM (aborts (is_empty page0 = true) False)
                (fun kb => valid_box (snd kb))
                (fun (_ : list (text * box_norm_t)) (st' : header_state) =>
                   image_open (fst (fst (fst st'))) "page0.png" = Ok page0
                   /\ image_open (fst (fst (fst st'))) "table.png" = Ok table_img)
                (header_step job_id "page0.png")) as F.
  apply F with (done := []); [|exact Hl | auto].
  intros done [key box] s Hb [H1 H2]. now apply header_step_outcome.
Qed.

(** *** The whole run *)

Lemma extract_no_input (dir : JobDir) (job_id : text) (e : exn) :
  _find_input_file dir = Raise e -> extract_inner_curvature dir job_id = Raise e.
Proof. intros H. unfold extract_inner_curvature. now rewrite H. Qed.

Lemma extract_undecodable (dir : JobDir) (job_id : text) (p : entry) (e : exn) :
  _find_input_file dir = Ok p -> rasterized p = Raise e ->
  extract_inner_curvature dir job_id = Raise e.
Proof.
  intros H R. unfold extract_inner_curvature. rewrite H, bind_ok. cbv beta zeta.
  rewrite raster_step, R. reflexivity.
Qed.

Lemma not_sized_empty {A} (img : image A) :
  is_empty img = true -> ~ sized 20 10 img.
Proof.
  intros He Hz. rewrite (sized_not_empty 20 10 img) in He; [discriminate | lia | lia | exact Hz].
Qed.

(** With an input file that rasterizes, the extraction ends in one of three
    ways: with a result whose rows are those of [ROW_BOXES], in order; with
    the [SystemError] of a save, on a page below 20 x 10 pixels; with the
    [ValueError] of a date, under a reader that does not keep to plain
    digits. *)
Lemma extract_outcome (dir : JobDir) (job_id : text) (p : entry) (page0 : Image) :
  _find_input_file dir = Ok p -> rasterized p = Ok page0 ->
  outcome (aborts (~ sized 20 10 page0) (~ plain_reader))
    (fun r => exists table_img,
         Forall2 (row_of table_img) ROW_BOXES (rows (snd r))
         /\ template (snd r) = "inner_curvature_v1")
    (extract_inner_curvature dir job_id).
Proof.
  intros H R. unfold extract_inner_curvature. rewrite H, bind_ok. cbv beta zeta.
  rewrite raster_step, R, bind_ok. cbv beta.
  set (E := aborts (~ sized 20 10 page0) (~ plain_reader)).
  assert (Small : forall e, aborts (is_empty page0 = true) False e -> E e).
  { intros e. apply aborts_weaken; [apply not_sized_empty | tauto]. }
  assert (D1 : forall k : JobDir -> result (JobDir * Extraction),
             outcome E (fun r => exists table_img,
                            Forall2 (row_of table_img) ROW_BOXES (rows (snd r))
                            /\ template (snd r) = "inner_curvature_v1")
               (k (write dir "page0.png" page0)) ->
             outcome E (fun r => exists table_img,
                            Forall2 (row_of table_img) ROW_BOXES (rows (snd r))
                            /\ template (snd r) = "inner_curvature_v1")
               (d <- (if Txt.eqb (Py.lower (Py.suffix (name p))) ".pdf"
                      then Ok (write dir "page0.png" page0)
                      else save dir "page0.png" page0) ;; k d)).
  { intros k K. destruct (Txt.eqb _ ".pdf"); [exact K|]. unfold save.
    destruct (is_empty page0) eqn:Ep; [|exact K].
    left. split; [reflexivity | now apply not_sized_empty]. }
  apply D1. clear D1.
  set (dir1 := write dir "page0.png" page0).
  assert (P1 : image_open dir1 "page0.png" = Ok page0) by apply image_open_write.
  eapply outcome_bind.
  { apply (outcome_weaken _ E _ _ _ Small (fun a H => H)).
    apply (crop_norm_outcome dir1 "page0.png" "diagram.png" page0 DIAGRAM_BOX 20
             False); [q_facts | lia | exact P1]. }
  intros [dir2 diagram_bbox] _ [c2 [E2 [_ _]]]. injection E2 as -> ->.
  cbv beta iota.
  set (dir2 := write dir1 "diagram.png" c2).
  assert (P2 : image_open dir2 "page0.png" = Ok page0).
  { unfold dir2. now rewrite image_open_write_other by reflexivity. }
  eapply outcome_bind.
  { apply (outcome_weaken _ E _ _ _ Small (fun a H => H)).
    apply (crop_norm_outcome dir2 "page0.png" "table.png" page0 TABLE_BOX 10
             False); [q_facts | lia | exact P2]. }
  intros [dir3 table_bbox] _ [table_img [E3 [C3 N3]]]. injection E3 as -> ->.
  cbv beta iota.
  set (dir3 := write dir2 "table.png" table_img).
  assert (P3 : image_open dir3 "page0.png" = Ok page0).
  { unfold dir3. now rewrite image_open_write_other by reflexivity. }
  assert (T3 : image_open dir3 "table.png" = Ok table_img) by apply image_open_write.
  eapply outcome_bind.
  { apply (outcome_weaken _ E _ _ _ Small (fun a H => H)).
    exact (headers_outcome job_id page0 table_img HEADER_BOXES header_boxes_valid
             (dir3, [], [], []) P3 T3). }
  intros [[[dir4 hd] ha] hb] _ [P4 T4]. simpl fst in P4, T4.
  cbv beta iota. rewrite T4, bind_ok. cbv beta.
  destruct (save_table_debug_saves dir4 (convert_RGB table_img) "table_debug_grid.png")
    as [dbg [E5 S5]].
  rewrite E5. unfold save at 1.
  rewrite (is_empty_of_size dbg (convert_RGB table_img) S5).
  unfold convert_RGB at 1. rewrite N3, bind_ok.
  set (dir5 := write dir4 "table_debug_grid.png" dbg).
  assert (P5 : image_open dir5 "page0.png" = Ok page0).
  { unfold dir5. now rewrite image_open_write_other by reflexivity. }
  destruct (crop_from_image_norm_ok (convert_RGB table_img) TABLE_TITLE_BOX 4)
    as [title_img E6]; [q_facts | lia |].
  rewrite E6, bind_ok. cbv beta.
  eapply outcome_bind.
  { eapply outcome_weaken;
      [| |exact (rows_outcome job_id (convert_RGB table_img) page0
                   (enumerate 1 ROW_BOXES)
                   (forall_enumerate _ ROW_BOXES row_boxes_valid 1) dir5 [] P5)].
    - intros e0. apply aborts_weaken; [|tauto].
      intros Hn Hz. apply Hn. unfold convert_RGB.
      exact (table_roomy page0 table_img Hz C3).
    - intros a Ha. exact Ha. }
  intros [[dir6 rows_out] row_assets] _ [P6 F6]. simpl fst in P6, F6. simpl snd in F6.
  cbv beta iota.
  unfold save_debug_bbox. rewrite P6, bind_ok. cbv beta.
  unfold save. unfold convert_RGB at 1.
  rewrite (is_empty_of_size _ page0 (debug_boxes_size _ page0)).
  destruct (is_empty page0) eqn:Ep.
  { left. split; [reflexivity | now apply not_sized_empty]. }
  rewrite bind_ok. simpl outcome. simpl snd. simpl rows.
  exists (convert_RGB table_img). split; [|reflexivity].
  now apply forall2_enumerate in F6.
Qed.

End Extract.
(** ** The claims about the extraction *)

Lemma forall2_in_r {A B} (P : A -> B -> Prop) (l1 : list A) (l2 : list B) (y : B) :
  Forall2 P l1 l2 -> In y l2 -> exists x, In x l1 /\ P x y.
Proof.
  induction 1 as [|a b l1 l2 Hab Hl IH]; intros I; [contradiction|].
  destruct I as [<- | I].
  - exists a. split; [now left | exact Hab].
  - destruct (IH I) as [x [Ix Px]]. exists x. split; [now right | exact Px].
Qed.

Lemma rasterized_not_missing (p : entry) : rasterized p <> Raise FileNotFoundError.
Proof.
  unfold rasterized.
  destruct (Txt.eqb _ ".pdf"); destruct (data p) as [[|pg pgs]|img|]; discriminate.
Qed.

Lemma fixture_input :
  @_find_input_file Fixture.job_dir = Ok Fixture.input_png.
Proof. reflexivity. Qed.

Lemma fixture_page : rasterized Fixture.input_png = Ok Fixture.page.
Proof. reflexivity. Qed.

Lemma fixture_page_sized : sized 20 10 Fixture.page.
Proof. unfold sized. simpl. lia. Qed.

Lemma fixture_reader_plain : @plain_reader Fixture.unicode Fixture.caps.
Proof. intros g. simpl. repeat constructor. Qed.

Section Claims.
Context {uni : Unicode} {cap : Capabilities}.

(** A result of the extraction carries the rows of [ROW_BOXES]. *)
Lemma extract_rows (dir : JobDir) (job_id : text) (dir' : JobDir) (res : Extraction) :
  extract_inner_curvature dir job_id = Ok (dir', res) ->
  exists table_img, Forall2 (row_of table_img) ROW_BOXES (rows res).
Proof.
  intros H. destruct (_find_input_file dir) as [p|e] eqn:F.
  - destruct (rasterized p) as [page0|e] eqn:R.
    + pose proof (extract_outcome dir job_id p page0 F R) as O.
      rewrite H in O. destruct O as [t [A _]]. now exists t.
    + rewrite (extract_undecodable dir job_id p e F R) in H. discriminate.
  - rewrite (extract_no_input dir job_id e F) in H. discriminate.
Qed.

(** Once the input file is found, the extraction does not end in
    [FileNotFoundError]. *)
Lemma extract_found (dir : JobDir) (job_id : text) (p : entry) :
  _find_input_file dir = Ok p ->
  extract_inner_curvature dir job_id <> Raise FileNotFoundError.
Proof.
  intros F H. destruct (rasterized p) as [page0|e] eqn:R.
  - pose proof (extract_outcome dir job_id p page0 F R) as O.
    rewrite H in O. destruct O as [[O _] | [O _]]; discriminate.
  - rewrite (extract_undecodable dir job_id p e F R) in H.
    apply (rasterized_not_missing p). rewrite R. now injection H as ->.
Qed.

(** On a page of 20 x 10 pixels or more, read by a reader that keeps to
    plain digits in the date cells, the extraction returns. *)
Lemma extract_returns (dir : JobDir) (job_id : text) (p : entry) (page0 : Image) :
  _find_input_file dir = Ok p -> rasterized p = Ok page0 ->
  sized 20 10 page0 -> plain_reader ->
  exists dir' res table_img,
    extract_inner_curvature dir job_id = Ok (dir', res)
    /\ Forall2 (row_of table_img) ROW_BOXES (rows res).
Proof.
  intros F R Z P. pose proof (extract_outcome dir job_id p page0 F R) as O.
  destruct (extract_inner_curvature dir job_id) as [[d r]|e].
  - destruct O as [t [A _]]. now exists d, r, t.
  - exfalso. destruct O as [[_ O] | [_ O]]; auto.
Qed.

(** C1.  In every extraction result the rows are exactly 3, one per entry of
    [ROW_BOXES] and in their order (which is top to bottom); in every row
    [lu], [lc] and [lb] hold exactly 4 strings each, and [lu ++ lc ++ lb]
    holds, in order, the values of the 12 twelfths of the grid band from left
    to right -- a string for each cell, whatever the recognizer returned. *)
Theorem rows_are_three_by_twelve (dir : JobDir) (job_id : text)
  (dir' : JobDir) (res : Extraction) :
  extract_inner_curvature dir job_id = Ok (dir', res) ->
  List.length (rows res) = 3%nat
  /\ (exists table_img, Forall2 (row_of table_img) ROW_BOXES (rows res))
  /\ (forall row, In row (rows res) ->
        List.length (lu row) = 4%nat /\ List.length (lc row) = 4%nat
        /\ List.length (lb row) = 4%nat
        /\ List.length (lu row ++ lc row ++ lb row)%list = 12%nat
        /\ exists grid_img,
            Forall2 (fun c v => cell_value grid_img c = Ok v)
              [0; 1; 2; 3; 4; 5; 6; 7; 8; 9; 10; 11]%Z
              (lu row ++ lc row ++ lb row)%list)
  /\ map (fun rb : box_norm_t => snd (fst (fst rb))) ROW_BOXES
     = [0.44; 0.59; 0.75]%Q.
Proof.
  intros H. destruct (extract_rows dir job_id dir' res H) as [t F].
  split; [now rewrite <- (Forall2_length F)|].
  split; [now exists t|]. split; [|reflexivity].
  intros row I. destruct (forall2_in_r _ _ _ row F I) as [rb [_ R]].
  destruct R as [ri [pi [gi [di [ci [_ [_ [_ [_ [_ [_ [C [L1 [L2 [L3 _]]]]]]]]]]]]]]].
  repeat split; auto.
  - rewrite !length_app, L1, L2, L3. reflexivity.
  - exists gi. exact C.
Qed.


(** C9.  The input lookup returns the first entry, in the order the directory
    is iterated, that is a regular file whose name starts with "input":
    "inputs.txt" and "input_copy.pdf" are accepted, a sub-directory "input" is
    not, and with several acceptable files the order of iteration decides.
    The extraction raises [FileNotFoundError] exactly when the directory has
    no such file. *)
Theorem input_lookup_by_prefix (dir : JobDir) (job_id : text) :
  (forall p,
      _find_input_file dir = Ok p <->
      exists before after,
        dir = (before ++ p :: after)%list
        /\ (Py.startswith (name p) "input" = true /\ is_file p = true)
        /\ forall q, In q before ->
                     ~ (Py.startswith (name q) "input" = true /\ is_file q = true))
  /\ (extract_inner_curvature dir job_id = Raise FileNotFoundError <->
      forall q, In q dir ->
                ~ (Py.startswith (name q) "input" = true /\ is_file q = true))
  /\ _find_input_file [Fixture.meta_txt; Fixture.inputs_txt] = Ok Fixture.inputs_txt
  /\ _find_input_file [Fixture.input_copy_pdf] = Ok Fixture.input_copy_pdf
  /\ _find_input_file [Fixture.input_subdir] = Raise FileNotFoundError
  /\ _find_input_file [Fixture.input_png; Fixture.input_copy_pdf]
     = Ok Fixture.input_png
  /\ _find_input_file [Fixture.input_copy_pdf; Fixture.input_png]
     = Ok Fixture.input_copy_pdf.
Proof.
  assert (Q : forall q, qualifies q = false <->
                        ~ (Py.startswith (name q) "input" = true /\ is_file q = true)).
  { intros q. unfold qualifies. rewrite <- andb_true_iff.
    destruct (Py.startswith (name q) "input" && is_file q); split; intros;
      congruence. }
  split; [|split; [|repeat split; reflexivity]].
  - intros p. rewrite find_input_first.
    assert (T : qualifies p = true <->
                Py.startswith (name p) "input" = true /\ is_file p = true)
      by (unfold qualifies; apply andb_true_iff).
    split; intros [b [a [Hd [Hq Hn]]]]; exists b, a;
      (split; [exact Hd|]); (split; [now apply T|]);
      intros q I; apply Q; now apply Hn.
  - pose proof (find_input_none dir) as N. split.
    + intros H q I. apply Q. destruct (_find_input_file dir) as [p|e] eqn:F.
      * exfalso. exact (extract_found dir job_id p F H).
      * destruct N as [_ N]. now apply N.
    + intros H. destruct (_find_input_file dir) as [p|e] eqn:F.
      * exfalso. destruct N as [Hq Hi]. apply (H p Hi).
        unfold qualifies in Hq. now apply andb_true_iff in Hq.
      * destruct N as [-> _]. now apply extract_no_input.
Qed.

End Claims.

Lemma fixture_extract :
  exists dir' res,
    @extract_inner_curvature Fixture.unicode Fixture.caps Fixture.job_dir "job"
    = Ok (dir', res).
Proof.
  destruct (@extract_returns Fixture.unicode Fixture.caps Fixture.job_dir "job"
              Fixture.input_png Fixture.page fixture_input fixture_page
              fixture_page_sized fixture_reader_plain) as [d [r [t [E _]]]].
  now exists d, r.
Qed.

Lemma rows_are_three_by_twelve_witness :
  exists dir' res,
    @extract_inner_curvature Fixture.unicode Fixture.caps Fixture.job_dir "job"
    = Ok (dir', res)
    /\ List.length (rows res) = 3%nat
    /\ (exists table_img,
          Forall2 (@row_of Fixture.unicode Fixture.caps table_img) ROW_BOXES
            (rows res))
    /\ forall row, In row (rows res) ->
         List.length (lu row) = 4%nat /\ List.length (lc row) = 4%nat
         /\ List.length (lb row) = 4%nat
         /\ List.length (lu row ++ lc row ++ lb row)%list = 12%nat
         /\ exists grid_img,
             Forall2 (fun c v => @cell_value Fixture.unicode Fixture.caps grid_img c
                                 = Ok v)
               [0; 1; 2; 3; 4; 5; 6; 7; 8; 9; 10; 11]%Z
               (lu row ++ lc row ++ lb row)%list.
Proof.
  destruct fixture_extract as [dir' [res E]].
  exists dir', res. split; [exact E|].
  destruct (@rows_are_three_by_twelve Fixture.unicode Fixture.caps Fixture.job_dir
              "job" dir' res E) as [L [F [C _]]].
  split; [exact L|]. split; [exact F | exact C].
Defined.


(** The fixture extraction evaluated: its rows. *)
Example extract_fixture_rows :
  match @extract_inner_curvature Fixture.unicode Fixture.caps Fixture.job_dir
          "job" with
  | Ok (_, res) => Some (rows res)
  | Raise _ => None
  end
  = let row := {| part_number := "DB11-3A";
                  lu := [""; ""; ""; ""];
                  lc := ["+1"; ""; ""; ""];
                  lb := [""; ""; ""; ""];
                  inspection_date := "March 14";
                  _date_raw := "3/14";
                  confirmer := "JKx" |} in
    Some [row; row; row].
Proof. vm_compute. reflexivity. Qed.
(** ** The claims about cells and dates *)


(** The heuristic on three synthetic cells: a stroke two pixels wide over the
    full height, a blank cell, a filled square. *)
Example stroke_cells :
  @parse_numeric_cell Fixture.unicode Fixture.caps "" (Some Fixture.stroke_cell)
  = Ok "+1"
  /\ @_looks_like_straight_one Fixture.caps
       {| width := 12; height := 12; px := fun _ _ => Fixture.white |} = false
  /\ @_looks_like_straight_one Fixture.caps
       {| width := 12; height := 12; px := fun _ _ => black |} = false.
Proof. repeat split; vm_compute; reflexivity. Qed.

(** Digits beyond ASCII: a full-width digit is a digit of a number, a
    superscript is not. *)
Example wide_digits :
  @parse_numeric_cell Fixture.unicode Fixture.caps "＋１2" None = Ok "+１2"
  /\ @parse_numeric_cell Fixture.unicode Fixture.caps "３" None = Ok "３"
  /\ @parse_numeric_cell Fixture.unicode Fixture.caps "²" None = Ok ""
  /\ @date_of_raw Fixture.unicode "３/１４" = Ok ("March 14", "３/１４")
  /\ @Py.isdigit Fixture.unicode "²" = true
  /\ @Py.int Fixture.unicode "²" = Raise ValueError
  /\ @Py.int Fixture.unicode " １4 " = Ok 14.
Proof. repeat split; vm_compute; reflexivity. Qed.

Section DateClaim.
Context {uni : Unicode} {cap : Capabilities}.





End DateClaim.


